(** * qbt_add: adding a torrent to qBittorrent with rules matched by tracker host

    A shallow embedding of [qbt_add/qbt_add.py] and the verification of its
    specification.  Python values loaded from YAML or JSON are dynamically
    typed; they are embedded as the inductive [value].  The functions keep
    the types of their annotations ([List[Dict]], [Dict], [Optional[int]]),
    and the values stored in a dictionary stay dynamic, since the code tests
    and coerces them at run time.  Exceptions are explicit: a computation
    returns [Ok v] or [Raise e], and the functions that talk to the remote
    client run in a state-and-exception monad over a [world] that records
    every request, every line printed and every read of the clock. *)

From Stdlib Require Import ZArith String Ascii List Lia.
From Stdlib.Floats Require Import SpecFloat.
From stdpp Require Import base option list gmap strings pretty.

Local Open Scope Z_scope.
Local Open Scope string_scope.
Local Open Scope list_scope.

Set Warnings "-clear-no-such-hyp".

(** ** Python values *)

(** What [yaml.safe_load] and [resp.json()] hand to the program.  A float is
    an IEEE 754 value as [spec_float] describes it: a signed zero, an
    infinity, a NaN, or [(-1)^s * m * 2^e]. *)
#[warnings="-register-all"]
Inductive value : Type :=
  | VNone
  | VBool (b : bool)
  | VInt (n : Z)
  | VFloat (f : spec_float)
  | VStr (s : string)
  | VList (l : list value)
  | VDict (d : gmap string value).

(** A [Dict] whose keys are strings. *)
Abbreviation dict := (gmap string value).

(** The exceptions the program can meet. *)
Inductive exn : Type :=
  | TypeError
  | ValueError
  | OverflowError
  | AttributeError
  | KeyError
  | IndexError
  | ReError            (* re.error *)
  | RuntimeError (msg : string)
  | JSONDecodeError
  | RequestException   (* requests.exceptions.RequestException *)
  | OSError
  | YAMLError (msg : string)   (* yaml.YAMLError *)
  | SystemExit (code : Z).

Inductive result (A : Type) : Type :=
  | Ok (a : A)
  | Raise (e : exn).
Arguments Ok {A} a.
Arguments Raise {A} e.

Definition rbind {A B} (r : result A) (k : A -> result B) : result B :=
  match r with
  | Ok a => k a
  | Raise e => Raise e
  end.

(** [try: body / except <classes>: handler], where [catches e] tells whether
    the [except] clause names the class of [e]. *)
Definition try_except {A} (body : result A) (catches : exn -> bool)
    (handler : result A) : result A :=
  match body with
  | Ok a => Ok a
  | Raise e => if catches e then handler else Raise e
  end.

(** [except re.error] *)
Definition is_re_error (e : exn) : bool :=
  match e with ReError => true | _ => false end.

(** [except (TypeError, ValueError)] *)
Definition is_type_or_value_error (e : exn) : bool :=
  match e with TypeError | ValueError => true | _ => false end.

(** [except Exception]: [SystemExit] derives from [BaseException] only, every
    other exception of [exn] derives from [Exception]. *)
Definition is_exception (e : exn) : bool :=
  match e with SystemExit _ => false | _ => true end.

(** [o is None] *)
Definition is_none {A} (o : option A) : bool :=
  match o with None => true | Some _ => false end.

(** Truth value of an object, as [if x:] and [not x] test it. *)
Definition truthy (v : value) : bool :=
  match v with
  | VNone => false
  | VBool b => b
  | VInt n => negb (Z.eqb n 0)
  | VFloat f => match f with S754_zero _ => false | _ => true end
  | VStr s => negb (String.eqb s "")
  | VList l => match l with [] => false | _ => true end
  | VDict d => negb (Nat.eqb (size d) 0)
  end.

(** [d.get(k)]: [None] when the key is missing. *)
Definition dict_get (d : dict) (k : string) : value :=
  default VNone (d !! k).

(** [d.get(k, dflt)] *)
Definition dict_get_default (d : dict) (k : string) (dflt : value) : value :=
  default dflt (d !! k).

(** [k in d] *)
Definition dict_has (d : dict) (k : string) : bool :=
  bool_decide (is_Some (d !! k)).

(** [host == v] for a string [host]: a string equals only an equal string. *)
Definition str_eq_value (host : string) (v : value) : bool :=
  match v with
  | VStr s => String.eqb host s
  | _ => false
  end.

(** [int(f)] for a float: truncation toward zero; [OverflowError] on an
    infinity and [ValueError] on a NaN. *)
Definition int_of_float (f : spec_float) : result Z :=
  match f with
  | S754_zero _ => Ok 0
  | S754_infinity _ => Raise OverflowError
  | S754_nan => Raise ValueError
  | S754_finite s m e =>
      let mag := if Z.leb 0 e then Z.pos m * 2 ^ e else Z.pos m / 2 ^ (- e) in
      Ok (if s then - mag else mag)
  end.

(** The configuration [load_rules] returns: a [Dict] with the optional keys
    ["defaults"] (a [Dict]) and ["rules"] (a [List[Dict]]). *)
Record rules_cfg : Type := {
  cfg_defaults : option dict;
  cfg_rules : option (list dict);
}.

(** ** The Python library the program calls

    The standard library functions that the program calls and that are not
    part of the repository: they are taken as given. *)
Class PyLib : Type := {
  (** a compiled pattern *)
  regex : Type;
  (** compiling a pattern: [Raise ReError] is [re.error] *)
  re_compile : string -> result regex;
  (** whether the compiled pattern matches somewhere in the string *)
  regex_search : regex -> string -> bool;
  (** [int(s)] for a string: [None] is [ValueError] *)
  int_of_str : string -> option Z;
  (** [urlparse(url).hostname] for a string: [None] when [urlparse] raises
      its [ValueError], [Some None] when the URL has no hostname *)
  urlparse_hostname : string -> option (option string);
  (** [str(v)] for a value that is not a string *)
  py_repr : value -> string;
  (** [a == b] on values *)
  py_eq : value -> value -> bool;
  (** what [time.time()] returns, with [t + n] and [t1 < t2] *)
  timestamp : Type;
  time_add : timestamp -> Z -> timestamp;
  time_lt : timestamp -> timestamp -> bool;
}.

(** ** The Rule Matcher *)

Section Matcher.
Context `{PyLib}.

(** [int(v)] *)
Definition py_int (v : value) : result Z :=
  match v with
  | VNone => Raise TypeError
  | VBool b => Ok (if b then 1 else 0)
  | VInt n => Ok n
  | VFloat f => int_of_float f
  | VStr s => match int_of_str s with Some n => Ok n | None => Raise ValueError end
  | VList _ => Raise TypeError
  | VDict _ => Raise TypeError
  end.

(** [re.search(pattern, host)] as a truth value: a pattern that is not a
    string is a [TypeError]. *)
Definition re_search (pattern : value) (host : string) : result bool :=
  match pattern with
  | VStr p => rbind (re_compile p) (fun r => Ok (regex_search r host))
  | _ => Raise TypeError
  end.

(** The test at the head of the inner loop body of [match_rules]: the value
    of [is_hit] once the [if]/[elif] is through. *)
Definition rule_is_hit (host : string) (rule : dict) : result bool :=
  let match_ := dict_get rule "match" in
  let match_regex := dict_get rule "match_regex" in
  if truthy match_ && str_eq_value host match_ then Ok true
  else if truthy match_regex then
    try_except
      (rbind (re_search match_regex host) (fun found =>
         Ok (if found then true else false)))
      is_re_error
      (Ok false)
  else Ok false.

(** The body of [if is_hit:] up to its [return]; [category] and
    [up_limit_kib] are still [None] when it is entered. *)
Definition rule_result (rule : dict) : result (option value * option Z) :=
  let category : option value :=
    if dict_has rule "category" && truthy (dict_get rule "category")
    then Some (dict_get rule "category") else None in
  rbind
    (if dict_has rule "up_limit_kib" then
       try_except
         (rbind (py_int (dict_get rule "up_limit_kib")) (fun n => Ok (Some n)))
         is_type_or_value_error
         (Ok None)
     else Ok None)
    (fun up_limit_kib => Ok (category, up_limit_kib)).

(** [for rule in rules]: [Ok (Some r)] is a [return r] from inside the loop,
    [Ok None] is the loop running to its end. *)
Fixpoint scan_rules (host : string) (rules : list dict)
    : result (option (option value * option Z)) :=
  match rules with
  | [] => Ok None
  | rule :: rules' =>
      rbind (rule_is_hit host rule) (fun is_hit =>
        if is_hit then rbind (rule_result rule) (fun r => Ok (Some r))
        else scan_rules host rules')
  end.

(** [for host in hosts] *)
Fixpoint scan_hosts (hosts : list string) (rules : list dict)
    : result (option (option value * option Z)) :=
  match hosts with
  | [] => Ok None
  | host :: hosts' =>
      rbind (scan_rules host rules) (fun r =>
        match r with
        | Some res => Ok (Some res)
        | None => scan_hosts hosts' rules
        end)
  end.

(** The code after the loops, entered with the values [category] and
    [up_limit_kib] have there. *)
Definition apply_defaults (defaults : dict) (category : option value)
    (up_limit_kib : option Z) : result (option value * option Z) :=
  let category :=
    if is_none category && truthy (dict_get defaults "category")
    then Some (dict_get defaults "category") else category in
  rbind
    (if is_none up_limit_kib && dict_has defaults "up_limit_kib" then
       try_except
         (rbind (py_int (dict_get_default defaults "up_limit_kib" (VInt 0)))
            (fun n => Ok (Some n)))
         is_type_or_value_error
         (Ok None)
     else Ok up_limit_kib)
    (fun up_limit_kib => Ok (category, up_limit_kib)).

Definition match_rules (hosts : list string) (rules_cfg : rules_cfg)
    : result (option value * option Z) :=
  let category : option value := None in
  let up_limit_kib : option Z := None in
  let rules := default [] (cfg_rules rules_cfg) in
  rbind (scan_hosts hosts rules) (fun r =>
    match r with
    | Some res => Ok res
    | None =>
        let defaults := default ∅ (cfg_defaults rules_cfg) in
        apply_defaults defaults category up_limit_kib
    end).

End Matcher.

(** ** The Tracker Hostname Extractor *)

Section Extractor.
Context `{PyLib}.

(** [urlparse(url).hostname]: [urlparse] of an object that is neither a
    string nor bytes fails with [AttributeError]. *)
Definition urlparse_hostname_of (url : value) : result (option string) :=
  match url with
  | VStr s =>
      match urlparse_hostname s with
      | Some hostname => Ok hostname
      | None => Raise ValueError
      end
  | _ => Raise AttributeError
  end.

(** [if parsed.hostname:] *)
Definition hostname_truthy (hostname : option string) : bool :=
  match hostname with
  | Some h => negb (String.eqb h "")
  | None => false
  end.

(** The body of the first loop: [hosts] after the tracker [tr]. *)
Definition tracker_step (hosts : list string) (tr : dict) : result (list string) :=
  let url := dict_get_default tr "url" (VStr "") in
  if negb (truthy url) then Ok hosts
  else
    try_except
      (rbind (urlparse_hostname_of url) (fun hostname =>
         match hostname with
         | Some h => if hostname_truthy hostname then Ok (hosts ++ [h]) else Ok hosts
         | None => Ok hosts
         end))
      is_exception
      (Ok hosts).

(** [for tr in trackers] *)
Fixpoint collect_hosts (trackers : list dict) (hosts : list string)
    : result (list string) :=
  match trackers with
  | [] => Ok hosts
  | tr :: trackers' =>
      rbind (tracker_step hosts tr) (fun hosts' => collect_hosts trackers' hosts')
  end.

(** [for h in hosts], with the set [seen] and the list [unique_hosts]. *)
Fixpoint unique_loop (hosts : list string) (seen : gset string)
    (unique_hosts : list string) : list string :=
  match hosts with
  | [] => unique_hosts
  | h :: hosts' =>
      if bool_decide (h ∉ seen)
      then unique_loop hosts' ({[h]} ∪ seen) (unique_hosts ++ [h])
      else unique_loop hosts' seen unique_hosts
  end.

Definition extract_hostnames_from_trackers (trackers : list dict)
    : result (list string) :=
  rbind (collect_hosts trackers []) (fun hosts =>
    Ok (unique_loop hosts ∅ [])).

(** Following the specification, not the code: the hostname a tracker
    record resolves to.  A record resolves to a hostname when its [url] is a
    non-empty string that parses as a URI with a non-empty hostname. *)
Definition tracker_hostname (tr : dict) : option string :=
  match tr !! "url" with
  | Some (VStr url) =>
      if String.eqb url "" then None
      else
        match urlparse_hostname url with
        | Some (Some h) => if String.eqb h "" then None else Some h
        | _ => None
        end
  | _ => None
  end.

End Extractor.

(** ** The process and the remote client

    The process runs in a [world] that records what it did: the requests
    sent, the reads of the clock, the calls of [time.sleep(0.5)] and the
    lines printed.  What the outside answers is the environment [env]. *)

Inductive http_method : Type := GET | POST.

(** A file of a multipart request: [(filename, file object, content type)]. *)
Record upload : Type := {
  up_filename : string;
  up_path : string;
  up_content_type : string;
}.

Record request : Type := {
  req_method : http_method;
  req_url : string;
  req_params : list (string * value);
  req_data : list (string * value);
  req_files : list (string * upload);
  req_verify : bool;
}.

Record response : Type := {
  status_code : Z;
  text : string;
  json : result value;          (* resp.json() *)
}.

(** [requests.Session], of which the program sets [verify]. *)
Record session : Type := { verify : bool }.

(** The [argparse.Namespace] of [parse_args]. *)
Record args : Type := {
  arg_source : string;
  arg_host : string;
  arg_username : option string;
  arg_password : option string;
  arg_config : string;
  arg_insecure : bool;
  arg_no_unpause : bool;
  arg_timeout : Z;
}.

Record world : Type := {
  calls : list request;
  clock_reads : nat;
  sleeps : nat;
  stderr : list string;
  stdout : list string;
}.

Definition world0 : world :=
  {| calls := []; clock_reads := 0; sleeps := 0; stderr := []; stdout := [] |}.

(** A computation in the world that returns or raises. *)
Definition prog (A : Type) : Type := world -> result A * world.

#[global] Instance prog_ret : MRet prog := fun A a w => (Ok a, w).
#[global] Instance prog_bind : MBind prog := fun A B k m w =>
  match m w with
  | (Ok a, w') => k a w'
  | (Raise e, w') => (Raise e, w')
  end.

Definition raise {A} (e : exn) : prog A := fun w => (Raise e, w).

Definition lift {A} (r : result A) : prog A := fun w => (r, w).

(** [sys.exit(code)] *)
Definition sys_exit {A} (code : Z) : prog A := raise (SystemExit code).

(** The world after one more request, line, sleep or read of the clock. *)
Definition record_call (rq : request) (w : world) : world :=
  {| calls := calls w ++ [rq]; clock_reads := clock_reads w; sleeps := sleeps w;
     stderr := stderr w; stdout := stdout w |}.

Definition record_err (line : string) (w : world) : world :=
  {| calls := calls w; clock_reads := clock_reads w; sleeps := sleeps w;
     stderr := stderr w ++ [line]; stdout := stdout w |}.

Definition record_out (line : string) (w : world) : world :=
  {| calls := calls w; clock_reads := clock_reads w; sleeps := sleeps w;
     stderr := stderr w; stdout := stdout w ++ [line] |}.

Definition record_sleep (w : world) : world :=
  {| calls := calls w; clock_reads := clock_reads w; sleeps := S (sleeps w);
     stderr := stderr w; stdout := stdout w |}.

Definition record_clock_read (w : world) : world :=
  {| calls := calls w; clock_reads := S (clock_reads w); sleeps := sleeps w;
     stderr := stderr w; stdout := stdout w |}.

(** [print(line, file=sys.stderr)] *)
Definition print_err (line : string) : prog unit := fun w =>
  (Ok tt, record_err line w).

(** [print(line)] *)
Definition print_out (line : string) : prog unit := fun w =>
  (Ok tt, record_out line w).

(** [time.sleep(0.5)] *)
Definition time_sleep : prog unit := fun w => (Ok tt, record_sleep w).

(** The status of the process when [main] ends with [r]: [sys.exit(code)]
    gives [code], an exception that nothing catches gives 1. *)
Definition exit_status (r : result unit) : Z :=
  match r with
  | Ok _ => 0
  | Raise (SystemExit code) => code
  | Raise _ => 1
  end.

(** [str(n)] for an integer. *)
Definition str_of_int (n : Z) : string := pretty n.

(** [os.path.basename(path)]: what follows the last slash. *)
Fixpoint basename_from (path acc : string) : string :=
  match path with
  | EmptyString => acc
  | String c path' =>
      if Ascii.eqb c "/" then basename_from path' ""
      else basename_from path' (acc +:+ String c "")
  end.

Definition basename (path : string) : string := basename_from path "".

(** [", ".join(parts)] *)
Definition join_comma (parts : list string) : string := String.concat ", " parts.

(** [not s] for an [Optional[str]]. *)
Definition str_missing (s : option string) : bool :=
  match s with
  | None => true
  | Some s => String.eqb s ""
  end.

Definition value_of_opt_str (s : option string) : value :=
  match s with
  | Some s => VStr s
  | None => VNone
  end.

(** [torrents[0]] *)
Definition py_index0 (v : value) : result value :=
  match v with
  | VList (x :: _) => Ok x
  | VList [] => Raise IndexError
  | VStr (String c _) => Ok (VStr (String c ""))
  | VStr EmptyString => Raise IndexError
  | VDict _ => Raise KeyError
  | _ => Raise TypeError
  end.

(** [v.get(key)] *)
Definition py_get (v : value) (key : string) : result value :=
  match v with
  | VDict d => Ok (dict_get d key)
  | _ => Raise AttributeError
  end.

(** The elements [for tr in trackers] runs through, each taken as the
    [Dict] on which [tr.get] is called: an element without [get] is an
    [AttributeError], an object that cannot be iterated a [TypeError]. *)
Fixpoint dicts_of (l : list value) : result (list dict) :=
  match l with
  | [] => Ok []
  | VDict d :: l' => rbind (dicts_of l') (fun ds => Ok (d :: ds))
  | _ :: _ => Raise AttributeError
  end.

Definition iter_dicts (v : value) : result (list dict) :=
  match v with
  | VList l => dicts_of l
  | VStr s => if String.eqb s "" then Ok [] else Raise AttributeError
  | VDict d => if Nat.eqb (size d) 0 then Ok [] else Raise AttributeError
  | _ => Raise TypeError
  end.

(** The requests the claims speak about, as the client functions build
    them. *)
Definition login_request (a : args) : request :=
  {| req_method := POST;
     req_url := arg_host a +:+ "/api/v2/auth/login";
     req_params := [];
     req_data := [("username", value_of_opt_str (arg_username a));
                  ("password", value_of_opt_str (arg_password a))];
     req_files := [];
     req_verify := negb (arg_insecure a) |}.

Definition find_request (s : session) (base_url tag : string) : request :=
  {| req_method := GET;
     req_url := base_url +:+ "/api/v2/torrents/info";
     req_params := [("tag", VStr tag)];
     req_data := [];
     req_files := [];
     req_verify := verify s |}.

Definition upload_limit_request (s : session) (base_url : string)
    (torrent_hash : value) (bytes_per_second : Z) : request :=
  {| req_method := POST;
     req_url := base_url +:+ "/api/v2/torrents/setUploadLimit";
     req_params := [];
     req_data := [("hashes", torrent_hash);
                  ("limit", VStr (str_of_int bytes_per_second))];
     req_files := [];
     req_verify := verify s |}.

Section Client.
Context `{PyLib}.

(** What the outside answers during one run: the clock at each read, the
    remote client at each request (numbered from 0 in the order sent), the
    UUID drawn, and the file system with what [yaml.safe_load] makes of a
    file ([None] for an empty document). *)
Record env : Type := {
  clock : nat -> timestamp;
  remote : nat -> request -> result response;
  uuid4 : string;
  isfile : string -> bool;
  open_file : string -> result unit;
  yaml_safe_load : string -> result (option rules_cfg);
}.

Variable e : env.

(** [time.time()] *)
Definition time_time : prog timestamp := fun w =>
  (Ok (clock e (clock_reads w)), record_clock_read w).

(** Sending a request: it is recorded, and the remote client answers or the
    call raises. *)
Definition send (rq : request) : prog response := fun w =>
  (remote e (length (calls w)) rq, record_call rq w).

(** [session.post(url, data=data, files=files)] *)
Definition session_post (s : session) (url : string) (data : list (string * value))
    (files : list (string * upload)) : prog response :=
  send {| req_method := POST; req_url := url; req_params := []; req_data := data;
          req_files := files; req_verify := verify s |}.

(** [session.get(url, params=params)] *)
Definition session_get (s : session) (url : string) (params : list (string * value))
    : prog response :=
  send {| req_method := GET; req_url := url; req_params := params; req_data := [];
          req_files := []; req_verify := verify s |}.

Definition qb_login (s : session) (base_url : string)
    (username password : option string) : prog unit :=
  if str_missing username || str_missing password then
    print_err "Error: Missing username/password. Provide --username/--password or env QBT_USERNAME/QBT_PASSWORD.";;
    sys_exit 2
  else
    resp ← session_post s (base_url +:+ "/api/v2/auth/login")
             [("username", value_of_opt_str username);
              ("password", value_of_opt_str password)] [];
    if negb (Z.eqb (status_code resp) 200) || negb (String.eqb (text resp) "Ok.") then
      print_err ("Error: Login failed (status " +:+ str_of_int (status_code resp)
                 +:+ "): " +:+ text resp);;
      sys_exit 1
    else mret tt.

Definition qb_add_source (s : session) (base_url source tag : string)
    (paused : bool) : prog unit :=
  resp ←
    (if String.prefix "magnet:?" source then
       session_post s (base_url +:+ "/api/v2/torrents/add")
         [("paused", VStr (if paused then "true" else "false"));
          ("tags", VStr tag);
          ("urls", VStr source)] []
     else
       (if negb (isfile e source) then
          print_err ("Error: File not found: " +:+ source);;
          sys_exit 2
        else mret tt);;
       lift (open_file e source);;
       session_post s (base_url +:+ "/api/v2/torrents/add")
         [("paused", VStr (if paused then "true" else "false"));
          ("tags", VStr tag)]
         [("torrents", {| up_filename := basename source; up_path := source;
                          up_content_type := "application/x-bittorrent" |})]);
  if negb (Z.eqb (status_code resp) 200) then
    print_err ("Error: Failed to add torrent (status " +:+ str_of_int (status_code resp)
               +:+ "): " +:+ text resp);;
    sys_exit 1
  else mret tt.

Definition qb_find_torrents_by_tag (s : session) (base_url tag : string)
    : prog value :=
  resp ← session_get s (base_url +:+ "/api/v2/torrents/info") [("tag", VStr tag)];
  if negb (Z.eqb (status_code resp) 200) then
    raise (RuntimeError ("Failed to query torrents by tag: "
                         +:+ str_of_int (status_code resp) +:+ " " +:+ text resp))
  else lift (json resp).

Definition qb_get_trackers (s : session) (base_url : string) (torrent_hash : value)
    : prog value :=
  resp ← session_get s (base_url +:+ "/api/v2/torrents/trackers")
           [("hash", torrent_hash)];
  if negb (Z.eqb (status_code resp) 200) then
    raise (RuntimeError ("Failed to fetch trackers: "
                         +:+ str_of_int (status_code resp) +:+ " " +:+ text resp))
  else lift (json resp).

Definition load_rules (path : string) : prog rules_cfg :=
  (if negb (isfile e path) then
     print_err ("Error: Rules file not found: " +:+ path);;
     sys_exit 2
   else mret tt);;
  lift (open_file e path);;
  data ←
    (match yaml_safe_load e path with
     | Ok loaded => mret (default {| cfg_defaults := None; cfg_rules := None |} loaded)
     | Raise (YAMLError msg) =>
         print_err ("Error: Failed to parse YAML rules: " +:+ msg);;
         sys_exit 2
     | Raise ex => raise ex
     end);
  mret {| cfg_defaults := Some (default ∅ (cfg_defaults data));
          cfg_rules := Some (default [] (cfg_rules data)) |}.

Definition qb_get_categories (s : session) (base_url : string) : prog value :=
  resp ← session_get s (base_url +:+ "/api/v2/torrents/categories") [];
  if negb (Z.eqb (status_code resp) 200) then
    raise (RuntimeError ("Failed to fetch categories: "
                         +:+ str_of_int (status_code resp) +:+ " " +:+ text resp))
  else lift (json resp).

(** [item in container] *)
Definition py_in (item container : value) : result bool :=
  match container with
  | VDict d =>
      match item with
      | VStr k => Ok (dict_has d k)
      | VList _ | VDict _ => Raise TypeError
      | _ => Ok false
      end
  | VList l => Ok (existsb (py_eq item) l)
  | VStr c =>
      match item with
      | VStr k => Ok (match String.index 0 k c with Some _ => true | None => false end)
      | _ => Raise TypeError
      end
  | _ => Raise TypeError
  end.

Definition qb_create_category_if_missing (s : session) (base_url : string)
    (category : value) : prog unit :=
  if negb (truthy category) then mret tt
  else
    cats ← qb_get_categories s base_url;
    known ← lift (py_in category cats);
    if (known : bool) then mret tt
    else
      resp ← session_post s (base_url +:+ "/api/v2/torrents/createCategory")
               [("category", category)] [];
      if negb (Z.eqb (status_code resp) 200) then
        print_err ("Warning: createCategory returned " +:+ str_of_int (status_code resp)
                   +:+ ": " +:+ text resp)
      else mret tt.

Definition qb_set_category (s : session) (base_url : string)
    (torrent_hash category : value) : prog unit :=
  if negb (truthy category) then mret tt
  else
    resp ← session_post s (base_url +:+ "/api/v2/torrents/setCategory")
             [("hashes", torrent_hash); ("category", category)] [];
    if negb (Z.eqb (status_code resp) 200) then
      print_err ("Warning: setCategory failed (" +:+ str_of_int (status_code resp)
                 +:+ "): " +:+ text resp)
    else mret tt.

(** The number of bytes per second [qb_set_upload_limit] computes:
    [max(0, int(limit_kib_per_s) * 1024)]. *)
Definition limit_bytes (limit_kib_per_s : Z) : Z :=
  Z.max 0 (limit_kib_per_s * 1024).

Definition qb_set_upload_limit (s : session) (base_url : string)
    (torrent_hash : value) (limit_kib_per_s : option Z) : prog unit :=
  match limit_kib_per_s with
  | None => mret tt
  | Some limit =>
      resp ← session_post s (base_url +:+ "/api/v2/torrents/setUploadLimit")
               [("hashes", torrent_hash);
                ("limit", VStr (str_of_int (limit_bytes limit)))] [];
      if negb (Z.eqb (status_code resp) 200) then
        print_err ("Warning: setUploadLimit failed (" +:+ str_of_int (status_code resp)
                   +:+ "): " +:+ text resp)
      else mret tt
  end.

Definition qb_remove_tag (s : session) (base_url : string)
    (torrent_hash : value) (tag : string) : prog unit :=
  _ ← session_post s (base_url +:+ "/api/v2/torrents/removeTags")
        [("hashes", torrent_hash); ("tags", VStr tag)] [];
  mret tt.

Definition qb_resume (s : session) (base_url : string) (torrent_hash : value)
    : prog unit :=
  resp ← session_post s (base_url +:+ "/api/v2/torrents/resume")
           [("hashes", torrent_hash)] [];
  if negb (Z.eqb (status_code resp) 200) then
    print_err ("Warning: resume failed (" +:+ str_of_int (status_code resp)
               +:+ "): " +:+ text resp)
  else mret tt.

(** [str(v)] inside an f-string. *)
Definition py_str (v : value) : string :=
  match v with
  | VStr s => s
  | _ => py_repr v
  end.

(** [if category:] for the [category] that [match_rules] returned. *)
Definition category_truthy (category : option value) : bool :=
  match category with
  | Some c => truthy c
  | None => false
  end.

(** [main] up to the poll loop: the session, the rules, the marker tag and
    the deadline. *)
Definition main_setup (a : args) : prog (session * rules_cfg * string * timestamp) :=
  let s := {| verify := negb (arg_insecure a) |} in
  qb_login s (arg_host a) (arg_username a) (arg_password a);;
  rules_cfg ← load_rules (arg_config a);
  let unique_tag := "qbt-rules-" +:+ uuid4 e in
  qb_add_source s (arg_host a) (arg_source a) unique_tag true;;
  now ← time_time;
  let deadline := time_add now (arg_timeout a) in
  mret (s, rules_cfg, unique_tag, deadline).

(** The loop [while time.time() < deadline:].  [torrents] is the variable of
    that name; the result is its value when the loop is left.  Each turn of
    the loop uses one unit of [fuel], and [None] means the fuel ran out
    before the loop was left. *)
Fixpoint await_registration (fuel : nat) (s : session) (base_url tag : string)
    (deadline : timestamp) (torrents : value) (w : world)
    : option (result value * world) :=
  match fuel with
  | O => None
  | S fuel' =>
      match time_time w with
      | (Raise ex, w1) => Some (Raise ex, w1)
      | (Ok now, w1) =>
          if time_lt now deadline then
            match qb_find_torrents_by_tag s base_url tag w1 with
            | (Raise ex, w2) => Some (Raise ex, w2)
            | (Ok torrents', w2) =>
                if truthy torrents' then Some (Ok torrents', w2)
                else
                  match time_sleep w2 with
                  | (Raise ex, w3) => Some (Raise ex, w3)
                  | (Ok _, w3) =>
                      await_registration fuel' s base_url tag deadline torrents' w3
                  end
            end
          else Some (Ok torrents, w1)
      end
  end.

(** The answer of the remote client to request number [i] shows no torrent
    under the tag: status 200 and a payload that is empty as [if torrents:]
    tests it. *)
Definition empty_answer (rq : request) (i : nat) : Prop :=
  exists resp v, remote e i rq = Ok resp /\ status_code resp = 200 /\
    json resp = Ok v /\ truthy v = false.

(** [main] after the poll loop. *)
Definition main_finish (a : args) (s : session) (rules_cfg : rules_cfg)
    (unique_tag : string) (torrents : value) : prog unit :=
  (if negb (truthy torrents) then
     print_err "Error: Added torrent not found by tag within timeout.";;
     sys_exit 1
   else mret tt);;
  torrent ← lift (py_index0 torrents);
  torrent_hash ← lift (py_get torrent "hash");
  trackers ← qb_get_trackers s (arg_host a) torrent_hash;
  hosts ← lift (rbind (iter_dicts trackers) extract_hostnames_from_trackers);
  '(category, up_limit_kib) ← lift (match_rules hosts rules_cfg);
  (if category_truthy category then
     qb_create_category_if_missing s (arg_host a) (default VNone category);;
     qb_set_category s (arg_host a) torrent_hash (default VNone category)
   else mret tt);;
  qb_set_upload_limit s (arg_host a) torrent_hash up_limit_kib;;
  qb_remove_tag s (arg_host a) torrent_hash unique_tag;;
  (if negb (arg_no_unpause a) then qb_resume s (arg_host a) torrent_hash
   else mret tt);;
  let applied : list string := [] in
  let applied :=
    if category_truthy category
    then applied ++ ["category=" +:+ py_str (default VNone category)] else applied in
  let applied :=
    match up_limit_kib with
    | Some n => applied ++ ["up_limit_kib=" +:+ str_of_int n]
    | None => applied
    end in
  let applied_str :=
    match applied with [] => "no rules applied" | _ => join_comma applied end in
  print_out ("Applied: " +:+ applied_str +:+ ". Hosts: "
             +:+ (match hosts with [] => "none" | _ => join_comma hosts end)).

Definition main (fuel : nat) (a : args) (w : world) : option (result unit * world) :=
  match main_setup a w with
  | (Raise ex, w1) => Some (Raise ex, w1)
  | (Ok (s, rules_cfg, unique_tag, deadline), w1) =>
      match await_registration fuel s (arg_host a) unique_tag deadline (VList []) w1 with
      | None => None
      | Some (Raise ex, w2) => Some (Raise ex, w2)
      | Some (Ok torrents, w2) => Some (main_finish a s rules_cfg unique_tag torrents w2)
      end
  end.

End Client.

(** ** A small library to run the definitions on

    An instance of [PyLib] that computes.  It covers a fragment of what the
    Python library accepts and is used for examples only: every theorem
    below holds for every [PyLib].
    - patterns: letters, digits, [-] and [_] stand for themselves, [.] for
      any character but a newline, a backslash before a punctuation
      character for that character, and a final [$] for the end of the
      string (or the place before a final newline); every other pattern is
      rejected with [re.error], as Python rejects ["("];
    - integers: an optional sign and decimal digits;
    - URLs: what stands between ["://"] and the next [/], [?] or [#],
      without user information and port, in lower case; brackets are
      rejected, as Python rejects ["http://[x/"];
    - time: whole seconds. *)

Inductive sample_atom : Type :=
  | AChar (c : ascii)
  | AAny.

Definition ascii_in (lo hi : N) (c : ascii) : bool :=
  N.leb lo (N_of_ascii c) && N.leb (N_of_ascii c) hi.

Definition is_digit (c : ascii) : bool := ascii_in 48 57 c.

Definition is_alnum (c : ascii) : bool :=
  is_digit c || ascii_in 65 90 c || ascii_in 97 122 c.

Definition is_punct (c : ascii) : bool :=
  (ascii_in 33 47 c || ascii_in 58 64 c || ascii_in 91 96 c || ascii_in 123 126 c).

Fixpoint sample_parse (p : string) : option (list sample_atom * bool) :=
  match p with
  | EmptyString => Some ([], false)
  | String c p' =>
      if Ascii.eqb c "\" then
        match p' with
        | String c' p'' =>
            if is_punct c' then
              match sample_parse p'' with
              | Some (atoms, at_end) => Some (AChar c' :: atoms, at_end)
              | None => None
              end
            else None
        | EmptyString => None
        end
      else if Ascii.eqb c "$" then
        match p' with EmptyString => Some ([], true) | _ => None end
      else
        let atom :=
          if Ascii.eqb c "." then Some AAny
          else if is_alnum c || Ascii.eqb c "-" || Ascii.eqb c "_" then Some (AChar c)
          else None in
        match atom, sample_parse p' with
        | Some a, Some (atoms, at_end) => Some (a :: atoms, at_end)
        | _, _ => None
        end
  end.

Definition newline : ascii := ascii_of_N 10.

Fixpoint sample_match_here (atoms : list sample_atom) (at_end : bool) (s : string)
    : bool :=
  match atoms with
  | [] => negb at_end || String.eqb s "" || String.eqb s (String newline "")
  | a :: atoms' =>
      match s with
      | EmptyString => false
      | String c s' =>
          match a with
          | AChar c' => Ascii.eqb c c'
          | AAny => negb (Ascii.eqb c newline)
          end && sample_match_here atoms' at_end s'
      end
  end.

Fixpoint sample_search (r : list sample_atom * bool) (s : string) : bool :=
  sample_match_here (fst r) (snd r) s ||
  match s with
  | EmptyString => false
  | String _ s' => sample_search r s'
  end.

Fixpoint digits_value (s : string) (acc : Z) : option Z :=
  match s with
  | EmptyString => Some acc
  | String c s' =>
      if is_digit c
      then digits_value s' (10 * acc + Z.of_N (N_of_ascii c - 48))
      else None
  end.

Definition sample_int_of_str (s : string) : option Z :=
  match s with
  | EmptyString => None
  | String c s' =>
      if Ascii.eqb c "-" then
        match s' with EmptyString => None | _ => Z.opp <$> digits_value s' 0 end
      else if Ascii.eqb c "+" then
        match s' with EmptyString => None | _ => digits_value s' 0 end
      else digits_value s 0
  end.

Definition lower (c : ascii) : ascii :=
  if ascii_in 65 90 c then ascii_of_N (N_of_ascii c + 32) else c.

(** What follows the first ["://"]. *)
Fixpoint after_scheme (s : string) : option string :=
  match s with
  | EmptyString => None
  | String c s' =>
      if String.prefix "://" s then Some (String.substring 3 (String.length s - 3) s)
      else after_scheme s'
  end.

(** The text up to the first [/], [?] or [#]. *)
Fixpoint netloc_of (s : string) : string :=
  match s with
  | EmptyString => EmptyString
  | String c s' =>
      if Ascii.eqb c "/" || Ascii.eqb c "?" || Ascii.eqb c "#" then EmptyString
      else String c (netloc_of s')
  end.

(** What follows the last [@], then what precedes the first [:]. *)
Fixpoint host_of_netloc (s acc : string) : string :=
  match s with
  | EmptyString => acc
  | String c s' =>
      if Ascii.eqb c "@" then host_of_netloc s' EmptyString
      else host_of_netloc s' (acc +:+ String c EmptyString)
  end.

Fixpoint before_colon (s : string) : string :=
  match s with
  | EmptyString => EmptyString
  | String c s' => if Ascii.eqb c ":" then EmptyString else String (lower c) (before_colon s')
  end.

Fixpoint has_bracket (s : string) : bool :=
  match s with
  | EmptyString => false
  | String c s' => Ascii.eqb c "[" || Ascii.eqb c "]" || has_bracket s'
  end.

Definition sample_urlparse_hostname (url : string) : option (option string) :=
  match after_scheme url with
  | None => Some None
  | Some rest =>
      let netloc := netloc_of rest in
      if has_bracket netloc then None
      else
        let h := before_colon (host_of_netloc netloc EmptyString) in
        Some (if String.eqb h "" then None else Some h)
  end.

Definition sample_repr (v : value) : string :=
  match v with
  | VNone => "None"
  | VBool b => if b then "True" else "False"
  | VInt n => str_of_int n
  | VFloat _ => "<float>"
  | VStr s => "'" +:+ s +:+ "'"
  | VList _ => "<list>"
  | VDict _ => "<dict>"
  end.

Definition sample_eq (a b : value) : bool :=
  match a, b with
  | VNone, VNone => true
  | VBool x, VBool y => Bool.eqb x y
  | VInt x, VInt y => Z.eqb x y
  | VStr x, VStr y => String.eqb x y
  | _, _ => false
  end.

Definition sample_lib : PyLib := {|
  regex := list sample_atom * bool;
  re_compile p :=
    match sample_parse p with Some r => Ok r | None => Raise ReError end;
  regex_search := sample_search;
  int_of_str := sample_int_of_str;
  urlparse_hostname := sample_urlparse_hostname;
  py_repr := sample_repr;
  py_eq := sample_eq;
  timestamp := Z;
  time_add := Z.add;
  time_lt := Z.ltb;
|}.

(** The parser of [re] reads the number of a repetition [{n}] and raises
    [OverflowError] (the repetition number is too large) when it is
    [MAXREPEAT] or more, which is [2^32 - 1]. *)
Definition MAXREPEAT : Z := 4294967295.

(** The digits at the head of a string, and what follows them. *)
Fixpoint take_digits (s : string) : string * string :=
  match s with
  | EmptyString => (EmptyString, EmptyString)
  | String c s' =>
      if is_digit c then (String c (fst (take_digits s')), snd (take_digits s'))
      else (EmptyString, s)
  end.

(** What follows a brace is a number of [MAXREPEAT] or more and the closing
    brace. *)
Definition overflowing_count (s : string) : bool :=
  String.prefix "}" (snd (take_digits s)) &&
  match digits_value (fst (take_digits s)) 0 with
  | Some n => Z.leb MAXREPEAT n
  | None => false
  end.

Definition is_plain_atom (c : ascii) : bool :=
  is_alnum c || Ascii.eqb c "-" || Ascii.eqb c "_" || Ascii.eqb c ".".

(** A pattern of plain characters in which one of them is followed by a
    repetition whose number is too large. *)
Fixpoint repeat_too_large (p : string) : bool :=
  match p with
  | EmptyString => false
  | String c p' =>
      is_plain_atom c &&
      (match p' with
       | String b p'' => Ascii.eqb b "{" && overflowing_count p''
       | EmptyString => false
       end || repeat_too_large p')
  end.

(** [sample_lib] with that [OverflowError] of [re.compile]. *)
Definition sample_lib_repeat : PyLib := {|
  regex := list sample_atom * bool;
  re_compile p :=
    if repeat_too_large p then Raise OverflowError
    else match sample_parse p with Some r => Ok r | None => Raise ReError end;
  regex_search := sample_search;
  int_of_str := sample_int_of_str;
  urlparse_hostname := sample_urlparse_hostname;
  py_repr := sample_repr;
  py_eq := sample_eq;
  timestamp := Z;
  time_add := Z.add;
  time_lt := Z.ltb;
|}.

(** ** Sample inputs *)

Definition rule_movies : dict :=
  {[ "match" := VStr "tracker.example.com";
     "category" := VStr "movies";
     "up_limit_kib" := VInt 500 ]}.

Definition rule_tv : dict :=
  {[ "match_regex" := VStr "example\.org$"; "category" := VStr "tv" ]}.

(** A rule whose pattern does not compile. *)
Definition rule_broken : dict :=
  {[ "match_regex" := VStr "("; "category" := VStr "broken" ]}.

(** A rule whose repetition number is too large for [re]. *)
Definition rule_overflowing : dict :=
  {[ "match_regex" := VStr "a{4294967296}"; "category" := VStr "broken" ]}.

(** A rule whose pattern is the YAML integer [5]. *)
Definition rule_number_pattern : dict :=
  {[ "match_regex" := VInt 5; "category" := VStr "broken" ]}.

(** A rule whose limit is the YAML scalar [.inf]. *)
Definition rule_infinite : dict :=
  {[ "match" := VStr "tracker.example.com";
     "category" := VStr "movies";
     "up_limit_kib" := VFloat (S754_infinity false) ]}.

(** A rule with a negative limit. *)
Definition rule_negative : dict :=
  {[ "match" := VStr "tracker.example.com"; "up_limit_kib" := VInt (-5) ]}.

Definition defaults_misc : dict :=
  {[ "category" := VStr "misc"; "up_limit_kib" := VInt 100 ]}.

(** Defaults whose limit is the YAML scalar [.inf]. *)
Definition defaults_infinite : dict :=
  {[ "up_limit_kib" := VFloat (S754_infinity false) ]}.

Definition sample_cfg : rules_cfg :=
  {| cfg_defaults := Some defaults_misc; cfg_rules := Some [rule_movies; rule_tv] |}.

Definition sample_trackers : list dict :=
  [ {[ "url" := VStr "http://a.example.org/announce" ]};
    {[ "url" := VStr "" ]};
    ∅;
    {[ "url" := VInt 5 ]};
    {[ "url" := VStr "http://[x/" ]};
    {[ "url" := VStr "udp://b.example.org:80" ]};
    {[ "url" := VStr "https://A.example.org:443/x" ]} ].

Definition sample_args : args :=
  {| arg_source := "magnet:?xt=urn:btih:c12fe1c06bba254a9dc9f519b335aa7c1367a88a";
     arg_host := "http://localhost:8080";
     arg_username := Some "admin";
     arg_password := Some "adminadmin";
     arg_config := "rules.yaml";
     arg_insecure := false;
     arg_no_unpause := false;
     arg_timeout := 3 |}.

Definition sample_args_no_password : args :=
  {| arg_source := arg_source sample_args;
     arg_host := arg_host sample_args;
     arg_username := Some "admin";
     arg_password := None;
     arg_config := "rules.yaml";
     arg_insecure := false;
     arg_no_unpause := false;
     arg_timeout := 3 |}.

Definition response_ok : response :=
  {| status_code := 200; text := "Ok."; json := Raise JSONDecodeError |}.

Definition response_no_torrents : response :=
  {| status_code := 200; text := "[]"; json := Ok (VList []) |}.

Definition response_forbidden : response :=
  {| status_code := 403; text := "Forbidden"; json := Raise JSONDecodeError |}.

Definition response_fails : response :=
  {| status_code := 200; text := "Fails."; json := Raise JSONDecodeError |}.

(** A remote client that accepts the login and the source and then never
    lists the torrent, under a clock that advances one second per read. *)
Definition env_never_registers : @env sample_lib :=
  {| clock := (fun k => Z.of_nat k) : nat -> @timestamp sample_lib;
     remote := fun i _ =>
       Ok (match i with
           | O | S O => response_ok
           | _ => response_no_torrents
           end);
     uuid4 := "1b4e28ba-2fa1-11d2-883f-0016d3cca427";
     isfile := fun _ => true;
     open_file := fun _ => Ok tt;
     yaml_safe_load := fun _ => Ok (Some sample_cfg) |}.

(** A remote client that answers every request with [answer]. *)
Definition env_answering (answer : response) : @env sample_lib :=
  {| clock := (fun k => Z.of_nat k) : nat -> @timestamp sample_lib;
     remote := fun _ _ => Ok answer;
     uuid4 := "1b4e28ba-2fa1-11d2-883f-0016d3cca427";
     isfile := fun _ => true;
     open_file := fun _ => Ok tt;
     yaml_safe_load := fun _ => Ok (Some sample_cfg) |}.

(** What [main] has sent and read when it enters the poll loop with
    [sample_args]. *)
Definition sample_tag : string := "qbt-rules-1b4e28ba-2fa1-11d2-883f-0016d3cca427".

Definition sample_add_request : request :=
  {| req_method := POST;
     req_url := "http://localhost:8080/api/v2/torrents/add";
     req_params := [];
     req_data := [("paused", VStr "true"); ("tags", VStr sample_tag);
                  ("urls", VStr (arg_source sample_args))];
     req_files := [];
     req_verify := true |}.

Definition sample_after_setup : world :=
  {| calls := [login_request sample_args; sample_add_request];
     clock_reads := 1; sleeps := 0; stderr := []; stdout := [] |}.

(** Unfolding the monad of [prog]. *)
Ltac run_prog :=
  unfold mbind, prog_bind, mret, prog_ret, session_post, session_get, send,
    print_err, sys_exit, raise, lift in *.

(** ** The command line

    [parse_args] declares the options and their defaults; splitting
    [sys.argv] into options is [argparse]'s part and is taken as done: a
    [command_line] holds what was given on the command line, [None] for an
    option that was not given ([--timeout] already converted by
    [type=int]). *)
Record command_line : Type := {
  cl_source : string;
  cl_host : option string;
  cl_username : option string;
  cl_password : option string;
  cl_config : option string;
  cl_insecure : bool;
  cl_no_unpause : bool;
  cl_timeout : option Z;
}.

(** [s.endswith("/")] *)
Fixpoint ends_with_slash (s : string) : bool :=
  match s with
  | EmptyString => false
  | String c EmptyString => Ascii.eqb c "/"
  | String _ s' => ends_with_slash s'
  end.

(** [os.path.join(a, b)] on a POSIX system. *)
Definition os_path_join (a b : string) : string :=
  if String.prefix "/" b then b
  else if String.eqb a "" || ends_with_slash a then a +:+ b
  else a +:+ "/" +:+ b.

(** [parse_args], given [os.environ], [os.path.dirname(__file__)] and the
    options of the command line. *)
Definition parse_args (environ : gmap string string) (script_dir : string)
    (cl : command_line) : args :=
  {| arg_source := cl_source cl;
     arg_host :=
       default (default "http://localhost:8080" (environ !! "QBT_HOST")) (cl_host cl);
     arg_username :=
       match cl_username cl with
       | Some u => Some u
       | None => environ !! "QBT_USERNAME"
       end;
     arg_password :=
       match cl_password cl with
       | Some p => Some p
       | None => environ !! "QBT_PASSWORD"
       end;
     arg_config :=
       default (default (os_path_join script_dir "rules.yaml")
                  (environ !! "QBT_RULES_FILE")) (cl_config cl);
     arg_insecure := cl_insecure cl;
     arg_no_unpause := cl_no_unpause cl;
     arg_timeout := default 20 (cl_timeout cl) |}.

(** ** The requests of the remote API, and what a run does to the world *)

Definition add_magnet_request (s : session) (base_url source tag : string)
    (paused : bool) : request :=
  {| req_method := POST;
     req_url := base_url +:+ "/api/v2/torrents/add";
     req_params := [];
     req_data := [("paused", VStr (if paused then "true" else "false"));
                  ("tags", VStr tag); ("urls", VStr source)];
     req_files := [];
     req_verify := verify s |}.

Definition add_file_request (s : session) (base_url source tag : string)
    (paused : bool) : request :=
  {| req_method := POST;
     req_url := base_url +:+ "/api/v2/torrents/add";
     req_params := [];
     req_data := [("paused", VStr (if paused then "true" else "false"));
                  ("tags", VStr tag)];
     req_files := [("torrents", {| up_filename := basename source; up_path := source;
                                   up_content_type := "application/x-bittorrent" |})];
     req_verify := verify s |}.

Definition trackers_request (s : session) (base_url : string) (torrent_hash : value)
    : request :=
  {| req_method := GET;
     req_url := base_url +:+ "/api/v2/torrents/trackers";
     req_params := [("hash", torrent_hash)];
     req_data := [];
     req_files := [];
     req_verify := verify s |}.

Definition categories_request (s : session) (base_url : string) : request :=
  {| req_method := GET;
     req_url := base_url +:+ "/api/v2/torrents/categories";
     req_params := [];
     req_data := [];
     req_files := [];
     req_verify := verify s |}.

Definition create_category_request (s : session) (base_url : string) (category : value)
    : request :=
  {| req_method := POST;
     req_url := base_url +:+ "/api/v2/torrents/createCategory";
     req_params := [];
     req_data := [("category", category)];
     req_files := [];
     req_verify := verify s |}.

Definition set_category_request (s : session) (base_url : string)
    (torrent_hash category : value) : request :=
  {| req_method := POST;
     req_url := base_url +:+ "/api/v2/torrents/setCategory";
     req_params := [];
     req_data := [("hashes", torrent_hash); ("category", category)];
     req_files := [];
     req_verify := verify s |}.

Definition remove_tag_request (s : session) (base_url : string) (torrent_hash : value)
    (tag : string) : request :=
  {| req_method := POST;
     req_url := base_url +:+ "/api/v2/torrents/removeTags";
     req_params := [];
     req_data := [("hashes", torrent_hash); ("tags", VStr tag)];
     req_files := [];
     req_verify := verify s |}.

Definition resume_request (s : session) (base_url : string) (torrent_hash : value)
    : request :=
  {| req_method := POST;
     req_url := base_url +:+ "/api/v2/torrents/resume";
     req_params := [];
     req_data := [("hashes", torrent_hash)];
     req_files := [];
     req_verify := verify s |}.

Definition session_login_request (s : session) (base_url : string)
    (username password : option string) : request :=
  {| req_method := POST;
     req_url := base_url +:+ "/api/v2/auth/login";
     req_params := [];
     req_data := [("username", value_of_opt_str username);
                  ("password", value_of_opt_str password)];
     req_files := [];
     req_verify := verify s |}.

(** The requests that follow the login in a run with the session [s], the
    base URL [base_url] and the marker tag [tag]: the source is submitted
    paused under the tag, the polls ask for the tag, and an upload limit is
    a number of bytes that is not negative. *)
Inductive api_request (s : session) (base_url tag : string) : request -> Prop :=
  | api_add_magnet (source : string) :
      api_request s base_url tag (add_magnet_request s base_url source tag true)
  | api_add_file (source : string) :
      api_request s base_url tag (add_file_request s base_url source tag true)
  | api_find :
      api_request s base_url tag (find_request s base_url tag)
  | api_trackers (torrent_hash : value) :
      api_request s base_url tag (trackers_request s base_url torrent_hash)
  | api_categories :
      api_request s base_url tag (categories_request s base_url)
  | api_create_category (category : value) :
      truthy category = true ->
      api_request s base_url tag (create_category_request s base_url category)
  | api_set_category (torrent_hash category : value) :
      truthy category = true ->
      api_request s base_url tag (set_category_request s base_url torrent_hash category)
  | api_upload_limit (torrent_hash : value) (bytes_per_second : Z) :
      0 <= bytes_per_second ->
      api_request s base_url tag
        (upload_limit_request s base_url torrent_hash bytes_per_second)
  | api_remove_tag (torrent_hash : value) :
      api_request s base_url tag (remove_tag_request s base_url torrent_hash tag)
  | api_resume (torrent_hash : value) :
      api_request s base_url tag (resume_request s base_url torrent_hash).

(** Every run of [m] changes the world only as [R] allows. *)
Definition keeps {A} (R : world -> world -> Prop) (m : prog A) : Prop :=
  forall w r w', m w = (r, w') -> R w w'.

(** The world has grown by requests that all satisfy [P]; nothing is said
    about the rest of the world. *)
Definition sends (P : request -> Prop) (w w' : world) : Prop :=
  exists new, calls w' = calls w ++ new /\ Forall P new.

(** Standard output is as it was. *)
Definition same_stdout (w w' : world) : Prop := stdout w' = stdout w.

(** A request of the session [s] to the remote client at [base_url]. *)
Definition addressed (s : session) (base_url : string) (rq : request) : Prop :=
  req_verify rq = verify s /\ String.prefix base_url (req_url rq) = true.

(** Whether a request has a [username] or a [password] field. *)
Definition carries_credentials (rq : request) : bool :=
  existsb (fun kv => String.eqb (fst kv) "username" || String.eqb (fst kv) "password")
    (req_data rq ++ req_params rq).

(** The remote client answers every request (no call of [requests] raises). *)
Definition remote_answers `{PyLib} (e : env) : Prop :=
  forall i rq, exists resp, remote e i rq = Ok resp.

(** The world after a best-effort request answered with [resp]: a warning
    is printed unless the status is 200. *)
Definition warned (before after : string) (resp : response) (w : world) : world :=
  if Z.eqb (status_code resp) 200 then w
  else record_err (before +:+ str_of_int (status_code resp) +:+ after +:+ text resp) w.

(** The requests [main] sends after the trackers request when nothing
    raises: for a decided category the categories are fetched, the
    category is created unless [known] and then set; a decided limit is
    submitted in bytes; the marker tag is removed; the torrent is resumed
    unless [--no-unpause]. *)
Definition apply_requests (s : session) (base_url : string) (torrent_hash : value)
    (tag : string) (category : option value) (known : bool) (limit : option Z)
    (no_unpause : bool) : list request :=
  match category with
  | Some c =>
      categories_request s base_url ::
      (if known then [] else [create_category_request s base_url c]) ++
      [set_category_request s base_url torrent_hash c]
  | None => []
  end ++
  match limit with
  | Some l => [upload_limit_request s base_url torrent_hash (Z.max 0 (l * 1024))]
  | None => []
  end ++
  [remove_tag_request s base_url torrent_hash tag] ++
  (if no_unpause then [] else [resume_request s base_url torrent_hash]).

(** ** Further sample inputs *)

(** A torrent listed under the marker tag, its trackers, and the categories
    the remote client knows (none). *)
Definition sample_hash : value := VStr "c12fe1c06bba254a9dc9f519b335aa7c1367a88a".

Definition sample_torrents : value := VList [VDict {[ "hash" := sample_hash ]}].

Definition sample_payload : value :=
  VList [VDict {[ "url" := VStr "http://tracker.example.com/announce" ]};
         VDict {[ "url" := VStr "** [DHT] **" ]}].

Definition response_torrents : response :=
  {| status_code := 200; text := "[...]"; json := Ok sample_torrents |}.

Definition response_trackers : response :=
  {| status_code := 200; text := "[...]"; json := Ok sample_payload |}.

Definition response_categories : response :=
  {| status_code := 200; text := "{}"; json := Ok (VDict ∅) |}.

(** A remote client that lists the torrent at the second poll and accepts
    everything that follows. *)
Definition env_success : @env sample_lib :=
  {| clock := (fun k => Z.of_nat k) : nat -> @timestamp sample_lib;
     remote := fun i _ =>
       Ok (match i with
           | 2 => response_no_torrents
           | 3 => response_torrents
           | 4 => response_trackers
           | 5 => response_categories
           | _ => response_ok
           end)%nat;
     uuid4 := "1b4e28ba-2fa1-11d2-883f-0016d3cca427";
     isfile := fun _ => true;
     open_file := fun _ => Ok tt;
     yaml_safe_load := fun _ => Ok (Some sample_cfg) |}.

(** The world when [main] leaves the poll loop under [env_success]. *)
Definition sample_after_poll : world :=
  {| calls := [login_request sample_args; sample_add_request;
               find_request {| verify := true |} "http://localhost:8080" sample_tag;
               find_request {| verify := true |} "http://localhost:8080" sample_tag];
     clock_reads := 3; sleeps := 1; stderr := []; stdout := [] |}.

(** A remote client that accepts everything, with a file system in which
    only the files [present] names exist and a rules file that loads as
    [loaded]. *)
Definition env_with_files (present : string -> bool)
    (loaded : result (option rules_cfg)) : @env sample_lib :=
  {| clock := (fun k => Z.of_nat k) : nat -> @timestamp sample_lib;
     remote := fun _ _ => Ok response_ok;
     uuid4 := "1b4e28ba-2fa1-11d2-883f-0016d3cca427";
     isfile := present;
     open_file := fun _ => Ok tt;
     yaml_safe_load := fun _ => loaded |}.

Definition sample_args_file : args :=
  {| arg_source := "/downloads/ubuntu.torrent";
     arg_host := "http://localhost:8080";
     arg_username := Some "admin";
     arg_password := Some "adminadmin";
     arg_config := "rules.yaml";
     arg_insecure := false;
     arg_no_unpause := false;
     arg_timeout := 3 |}.

(** A command line that names the host and a short timeout, in an
    environment that names another host and the credentials. *)
Definition sample_command_line : command_line :=
  {| cl_source := arg_source sample_args;
     cl_host := Some "https://seedbox.example.net";
     cl_username := None;
     cl_password := None;
     cl_config := None;
     cl_insecure := false;
     cl_no_unpause := false;
     cl_timeout := Some 3 |}.

Definition sample_environ : gmap string string :=
  {[ "QBT_HOST" := "http://qb.lan:8080";
     "QBT_USERNAME" := "admin";
     "QBT_PASSWORD" := "adminadmin" ]}.

(** * Verification *)

(** ** The Rule Matcher *)

Section MatcherFacts.
Context `{PyLib}.

Lemma dict_has_lookup (d : gmap string value) (k : string) :
  dict_has d k = match d !! k with Some _ => true | None => false end.
Proof.
  unfold dict_has. destruct (d !! k) eqn:E.
  - apply bool_decide_eq_true. eauto.
  - apply bool_decide_eq_false. intros [v Hv]. discriminate.
Qed.

(** A rule hits exactly when its exact-match field equals the host, or else
    its pattern compiles and is found in the host. *)
Lemma rule_is_hit_true_iff (host : string) (rule : gmap string value) :
  rule_is_hit host rule = Ok true <->
  (dict_get rule "match" = VStr host /\ host <> "") \/
  ((truthy (dict_get rule "match") && str_eq_value host (dict_get rule "match")) = false /\
   exists p rx, dict_get rule "match_regex" = VStr p /\ p <> "" /\
     re_compile p = Ok rx /\ regex_search rx host = true).
Proof.
  unfold rule_is_hit.
  destruct (truthy (dict_get rule "match") && str_eq_value host (dict_get rule "match")) eqn:E.
  - split; [intros _; left | done].
    apply andb_prop in E as [Ht He].
    destruct (dict_get rule "match"); try discriminate.
    simpl in *. apply String.eqb_eq in He. subst s. split; [done|].
    intros ->. discriminate.
  - split.
    + intros Hhit. right. split; [done|].
      destruct (dict_get rule "match_regex") as [| | | |p| |] eqn:Er; simpl in Hhit;
        try discriminate; try (destruct (truthy _); discriminate).
      * destruct b; discriminate.
      * destruct (negb (n =? 0)%Z); discriminate.
      * destruct f; discriminate.
      * destruct (negb (String.eqb p "")) eqn:Ep; [|discriminate].
        destruct (re_compile p) as [rx|ex] eqn:Ec; simpl in Hhit.
        -- exists p, rx. repeat split; try done.
           ++ intros ->. discriminate.
           ++ destruct (regex_search rx host); [done | discriminate].
        -- destruct (is_re_error ex); discriminate.
      * destruct l; discriminate.
      * destruct (negb _); discriminate.
    + intros [[Hm Hne] | [_ (p & rx & Hr & Hp & Hc & Hs)]].
      * rewrite Hm in E. simpl in E. rewrite String.eqb_refl in E.
        destruct (String.eqb_spec host ""); [done | discriminate].
      * rewrite Hr. simpl. destruct (String.eqb_spec p ""); [done|]. simpl.
        rewrite Hc. simpl. by rewrite Hs.
Qed.

(** A rule with neither an exact-match field nor a pattern never hits. *)
Lemma rule_without_matcher_never_hits (host : string) (rule : gmap string value) :
  rule !! "match" = None -> rule !! "match_regex" = None ->
  rule_is_hit host rule = Ok false.
Proof.
  intros Hm Hr. unfold rule_is_hit, dict_get. by rewrite Hm, Hr.
Qed.

Lemma scan_rules_skip (host : string) (rs1 rs2 : list (gmap string value)) :
  Forall (fun r => rule_is_hit host r = Ok false) rs1 ->
  scan_rules host (rs1 ++ rs2) = scan_rules host rs2.
Proof.
  induction 1 as [|r rs1 Hr _ IH]; [done|].
  simpl. by rewrite Hr.
Qed.

Lemma scan_rules_none (host : string) (rs : list (gmap string value)) :
  Forall (fun r => rule_is_hit host r = Ok false) rs ->
  scan_rules host rs = Ok None.
Proof.
  intros Hrs. rewrite <- (app_nil_r rs). by rewrite scan_rules_skip.
Qed.

Lemma scan_hosts_skip (hs1 hs2 : list string) (rules : list (gmap string value)) :
  Forall (fun h => Forall (fun r => rule_is_hit h r = Ok false) rules) hs1 ->
  scan_hosts (hs1 ++ hs2) rules = scan_hosts hs2 rules.
Proof.
  induction 1 as [|h hs1 Hh _ IH]; [done|].
  simpl. by rewrite scan_rules_none.
Qed.

Lemma scan_hosts_none (hosts : list string) (rules : list (gmap string value)) :
  Forall (fun h => Forall (fun r => rule_is_hit h r = Ok false) rules) hosts ->
  scan_hosts hosts rules = Ok None.
Proof.
  intros Hh. rewrite <- (app_nil_r hosts). by rewrite scan_hosts_skip.
Qed.

(** What a hit returns, spelled out. *)
Lemma rule_result_eq (rule : gmap string value) :
  rule_result rule =
    let category :=
      if truthy (dict_get rule "category") then Some (dict_get rule "category") else None in
    match rule !! "up_limit_kib" with
    | None => Ok (category, None)
    | Some v =>
        match py_int v with
        | Ok n => Ok (category, Some n)
        | Raise TypeError | Raise ValueError => Ok (category, None)
        | Raise ex => Raise ex
        end
    end.
Proof.
  unfold rule_result. rewrite !dict_has_lookup. unfold dict_get.
  destruct (rule !! "category") as [c|]; simpl;
    destruct (rule !! "up_limit_kib") as [v|]; simpl; try done;
    destruct (py_int v) as [n|[]]; simpl; done.
Qed.


Lemma match_rules_scan (hosts : list string) (cfg : rules_cfg) :
  match_rules hosts cfg =
    rbind (scan_hosts hosts (default [] (cfg_rules cfg))) (fun r =>
      match r with
      | Some res => Ok res
      | None => apply_defaults (default ∅ (cfg_defaults cfg)) None None
      end).
Proof. reflexivity. Qed.

(** What the fallback returns, spelled out. *)
Lemma apply_defaults_eq (defaults : gmap string value) :
  apply_defaults defaults None None =
    let category :=
      if truthy (dict_get defaults "category")
      then Some (dict_get defaults "category") else None in
    match defaults !! "up_limit_kib" with
    | None => Ok (category, None)
    | Some v =>
        match py_int v with
        | Ok n => Ok (category, Some n)
        | Raise TypeError | Raise ValueError => Ok (category, None)
        | Raise ex => Raise ex
        end
    end.
Proof.
  unfold apply_defaults. rewrite dict_has_lookup. unfold dict_get_default, dict_get.
  simpl. destruct (defaults !! "up_limit_kib") as [v|]; simpl; [|done].
  destruct (py_int v) as [n|[]]; simpl; done.
Qed.


(** C1, where the code departs from it.  The first hit decides, but its
    limit is not always returned or dropped: when the
    [up_limit_kib] field of the rule that hits first is an infinite float
    (the YAML scalar [.inf]), [int] raises [OverflowError], which the
    handler for [TypeError] and [ValueError] of lines 172-175 does not
    catch, and [match_rules] raises instead of returning the category of the
    rule with no limit. *)
Theorem match_rules_first_hit_infinite_limit_raises (hs1 hs2 : list string) (h : string)
    (rs1 rs2 : list (gmap string value)) (r : gmap string value)
    (defaults : option (gmap string value)) (negative : bool) :
  Forall (fun h' => Forall (fun r' => rule_is_hit h' r' = Ok false) (rs1 ++ r :: rs2)) hs1 ->
  Forall (fun r' => rule_is_hit h r' = Ok false) rs1 ->
  rule_is_hit h r = Ok true ->
  r !! "up_limit_kib" = Some (VFloat (S754_infinity negative)) ->
  match_rules (hs1 ++ h :: hs2)
      {| cfg_defaults := defaults; cfg_rules := Some (rs1 ++ r :: rs2) |} =
    Raise OverflowError.
Proof.
  intros Hhosts Hrules Hhit Hlimit.
  rewrite match_rules_scan. simpl.
  rewrite scan_hosts_skip by done. simpl.
  rewrite scan_rules_skip by done. simpl.
  rewrite Hhit. simpl.
  rewrite rule_result_eq, Hlimit. reflexivity.
Qed.

(** The fallback, when no rule hits any host. *)
Lemma match_rules_no_hit (hosts : list string) (cfg : rules_cfg) :
  Forall (fun h => Forall (fun r => rule_is_hit h r = Ok false) (default [] (cfg_rules cfg)))
    hosts ->
  match_rules hosts cfg = apply_defaults (default ∅ (cfg_defaults cfg)) None None.
Proof.
  intros Hno. rewrite match_rules_scan. by rewrite scan_hosts_none.
Qed.

Lemma rule_is_hit_not_re_error (host : string) (rule : gmap string value) :
  rule_is_hit host rule <> Raise ReError.
Proof.
  unfold rule_is_hit.
  destruct (truthy _ && _); [done|].
  destruct (truthy _); [|done].
  destruct (re_search _ host) as [b|ex]; simpl; [done|].
  destruct ex; simpl; done.
Qed.

Lemma py_int_not_re_error (v : value) : py_int v <> Raise ReError.
Proof.
  destruct v; simpl; try done.
  - destruct f; done.
  - destruct (int_of_str s); done.
Qed.

Lemma rule_result_not_re_error (rule : gmap string value) :
  rule_result rule <> Raise ReError.
Proof.
  rewrite rule_result_eq. simpl.
  destruct (rule !! "up_limit_kib") as [v|]; [|done].
  pose proof (py_int_not_re_error v).
  destruct (py_int v) as [n|[]]; done.
Qed.

Lemma apply_defaults_not_re_error (defaults : gmap string value) :
  apply_defaults defaults None None <> Raise ReError.
Proof.
  rewrite apply_defaults_eq. simpl.
  destruct (defaults !! "up_limit_kib") as [v|]; [|done].
  pose proof (py_int_not_re_error v).
  destruct (py_int v) as [n|[]]; done.
Qed.

Lemma scan_rules_not_re_error (host : string) (rules : list (gmap string value)) :
  scan_rules host rules <> Raise ReError.
Proof.
  induction rules as [|r rules IH]; [done|]. simpl.
  pose proof (rule_is_hit_not_re_error host r) as Hhit.
  destruct (rule_is_hit host r) as [[]|ex]; simpl.
  - pose proof (rule_result_not_re_error r) as Hres.
    destruct (rule_result r); simpl; [done|].
    intros [= ->]. by apply Hres.
  - exact IH.
  - intros [= ->]. by apply Hhit.
Qed.

Lemma scan_hosts_not_re_error (hosts : list string) (rules : list (gmap string value)) :
  scan_hosts hosts rules <> Raise ReError.
Proof.
  induction hosts as [|h hosts IH]; [done|]. simpl.
  pose proof (scan_rules_not_re_error h rules) as Hscan.
  destruct (scan_rules h rules) as [[res|]|ex]; simpl; try done.
Qed.

Lemma match_rules_not_re_error (hosts : list string) (cfg : rules_cfg) :
  match_rules hosts cfg <> Raise ReError.
Proof.
  rewrite match_rules_scan.
  pose proof (scan_hosts_not_re_error hosts (default [] (cfg_rules cfg))) as Hscan.
  destruct (scan_hosts _ _) as [[res|]|ex]; simpl; try done.
  - apply apply_defaults_not_re_error.
  - intros [= ->]. by apply Hscan.
Qed.

(** With an invalid pattern the rule hits by its exact-match field or not at
    all, and the test does not raise. *)
Lemma rule_is_hit_invalid_regex (host : string) (rule : gmap string value) (p : string) :
  dict_get rule "match_regex" = VStr p ->
  re_compile p = Raise ReError ->
  rule_is_hit host rule =
    Ok (truthy (dict_get rule "match") && str_eq_value host (dict_get rule "match")).
Proof.
  intros Hr Hc. unfold rule_is_hit.
  destruct (truthy (dict_get rule "match") && _); [done|].
  rewrite Hr. simpl. destruct (negb _); [|done].
  by rewrite Hc.
Qed.

Lemma scan_rules_remove (host : string) (rs1 rs2 : list (gmap string value))
    (r : gmap string value) :
  rule_is_hit host r = Ok false ->
  scan_rules host (rs1 ++ r :: rs2) = scan_rules host (rs1 ++ rs2).
Proof.
  intros Hr. induction rs1 as [|r1 rs1 IH]; simpl.
  - by rewrite Hr.
  - destruct (rule_is_hit host r1) as [[]|ex]; simpl; done.
Qed.

Lemma scan_hosts_remove (hosts : list string) (rs1 rs2 : list (gmap string value))
    (r : gmap string value) :
  Forall (fun h => rule_is_hit h r = Ok false) hosts ->
  scan_hosts hosts (rs1 ++ r :: rs2) = scan_hosts hosts (rs1 ++ rs2).
Proof.
  induction 1 as [|h hosts Hh _ IH]; [done|].
  simpl. rewrite scan_rules_remove by done. by rewrite IH.
Qed.

(** X22.  A pattern that [re] rejects with [re.error] never makes the
    matcher raise: no call of [match_rules] ends in [re.error]; a rule whose
    [match_regex] makes [re.compile] raise [re.error] hits by its
    exact-match field or not at all; when that field
    equals none of the hosts the rule is skipped, that is, the result is the
    one of the rule set without the rule; so a rule that follows it and hits
    the same host decides the result. *)
Theorem invalid_regex_rule_is_skipped (hosts : list string)
    (rs1 rs2 : list (gmap string value)) (bad : gmap string value) (p : string)
    (defaults : option (gmap string value)) :
  dict_get bad "match_regex" = VStr p ->
  re_compile p = Raise ReError ->
  Forall (fun h => str_eq_value h (dict_get bad "match") = false) hosts ->
  (forall hosts' cfg, match_rules hosts' cfg <> Raise ReError) /\
  (forall host, rule_is_hit host bad =
     Ok (truthy (dict_get bad "match") && str_eq_value host (dict_get bad "match"))) /\
  match_rules hosts {| cfg_defaults := defaults; cfg_rules := Some (rs1 ++ bad :: rs2) |} =
    match_rules hosts {| cfg_defaults := defaults; cfg_rules := Some (rs1 ++ rs2) |} /\
  (forall host hosts' good,
     In host hosts -> rule_is_hit host good = Ok true ->
     match_rules (host :: hosts')
       {| cfg_defaults := defaults; cfg_rules := Some (bad :: good :: rs2) |} =
     rule_result good).
Proof.
  intros Hr Hc Hexact.
  assert (Hmiss : Forall (fun h => rule_is_hit h bad = Ok false) hosts).
  { eapply Forall_impl; [exact Hexact|]. intros h Hh. simpl in Hh.
    rewrite (rule_is_hit_invalid_regex h bad p Hr Hc), Hh.
    by rewrite andb_false_r. }
  split; [apply match_rules_not_re_error|].
  split; [intros host; by apply rule_is_hit_invalid_regex with p|].
  split.
  - rewrite !match_rules_scan. simpl. by rewrite scan_hosts_remove.
  - intros host hosts' good Hin Hgood.
    rewrite match_rules_scan. simpl.
    rewrite Forall_forall in Hmiss. rewrite (Hmiss host) by (by apply list_elem_of_In).
    simpl. rewrite Hgood. simpl.
    by destruct (rule_result good) as [[c l]|ex].
Qed.

(** The test of a rule that does not hit by its exact-match field and whose
    pattern makes [re.search] raise another exception than [re.error]. *)
Lemma rule_is_hit_pattern_raises (host : string) (rule : gmap string value) (ex : exn) :
  truthy (dict_get rule "match") && str_eq_value host (dict_get rule "match") = false ->
  truthy (dict_get rule "match_regex") = true ->
  re_search (dict_get rule "match_regex") host = Raise ex ->
  is_re_error ex = false ->
  rule_is_hit host rule = Raise ex.
Proof.
  intros Hexact Htruthy Hsearch Hclass. unfold rule_is_hit.
  rewrite Hexact, Htruthy, Hsearch. simpl. by rewrite Hclass.
Qed.

(** C3, where the code departs from it.  The handler of lines 165-167 names
    [re.error] only.  When the first host reaches a rule (no rule before it
    hits that host) whose pattern makes [re.search] raise an exception of
    another class, as [re] does with [OverflowError] for the pattern
    ["a{4294967296}"] and with [TypeError] for a pattern that is not a
    string, the rule is not skipped: [match_rules] raises that exception,
    whatever rules follow, also when the next rule hits the host. *)
Theorem invalid_pattern_raises_unless_re_error (host : string) (hosts' : list string)
    (rs1 rs2 : list (gmap string value)) (bad : gmap string value)
    (defaults : option (gmap string value)) (ex : exn) :
  Forall (fun r' => rule_is_hit host r' = Ok false) rs1 ->
  truthy (dict_get bad "match") && str_eq_value host (dict_get bad "match") = false ->
  truthy (dict_get bad "match_regex") = true ->
  re_search (dict_get bad "match_regex") host = Raise ex ->
  is_re_error ex = false ->
  match_rules (host :: hosts')
      {| cfg_defaults := defaults; cfg_rules := Some (rs1 ++ bad :: rs2) |} =
    Raise ex.
Proof.
  intros Hrules Hexact Htruthy Hsearch Hclass.
  rewrite match_rules_scan. simpl.
  rewrite scan_rules_skip by done. simpl.
  by rewrite (rule_is_hit_pattern_raises host bad ex).
Qed.

(** The same for every library: a pattern that is not a string, followed by
    a rule that hits the host. *)
Example match_rules_number_pattern_raises (good : gmap string value) :
  match_rules ["a.example.org"]
    {| cfg_defaults := None; cfg_rules := Some [rule_number_pattern; good] |} =
    Raise TypeError.
Proof. reflexivity. Qed.

Lemma rule_result_limit (rule : gmap string value) (c : option value) (n : Z) :
  rule_result rule = Ok (c, Some n) ->
  exists v, rule !! "up_limit_kib" = Some v /\ py_int v = Ok n.
Proof.
  rewrite rule_result_eq. simpl.
  destruct (rule !! "up_limit_kib") as [v|]; [|discriminate].
  intros Hres. exists v. split; [done|].
  destruct (py_int v) as [m|[]]; try discriminate. by injection Hres as _ ->.
Qed.

Lemma apply_defaults_limit (defaults : gmap string value) (c : option value) (n : Z) :
  apply_defaults defaults None None = Ok (c, Some n) ->
  exists v, defaults !! "up_limit_kib" = Some v /\ py_int v = Ok n.
Proof.
  rewrite apply_defaults_eq. simpl.
  destruct (defaults !! "up_limit_kib") as [v|]; [|discriminate].
  intros Hres. exists v. split; [done|].
  destruct (py_int v) as [m|[]]; try discriminate. by injection Hres as _ ->.
Qed.

Lemma scan_rules_limit (host : string) (rules : list (gmap string value))
    (c : option value) (n : Z) :
  scan_rules host rules = Ok (Some (c, Some n)) ->
  exists r v, r ∈ rules /\ r !! "up_limit_kib" = Some v /\ py_int v = Ok n.
Proof.
  induction rules as [|r rules IH]; [discriminate|]. simpl.
  destruct (rule_is_hit host r) as [[]|ex]; simpl; [| |discriminate].
  - destruct (rule_result r) as [[c' l']|ex] eqn:Hres; simpl; [|discriminate].
    intros [= -> ->]. apply rule_result_limit in Hres as (v & Hv & Hn).
    exists r, v. split; [left|done].
  - intros Hscan. destruct (IH Hscan) as (r' & v & Hin & Hv & Hn).
    exists r', v. split; [by right|done].
Qed.

Lemma scan_hosts_limit (hosts : list string) (rules : list (gmap string value))
    (c : option value) (n : Z) :
  scan_hosts hosts rules = Ok (Some (c, Some n)) ->
  exists r v, r ∈ rules /\ r !! "up_limit_kib" = Some v /\ py_int v = Ok n.
Proof.
  induction hosts as [|h hosts IH]; [discriminate|]. simpl.
  destruct (scan_rules h rules) as [[[c' l']|]|ex] eqn:Hscan; simpl; [| |discriminate].
  - intros [= -> ->]. by apply scan_rules_limit in Hscan.
  - exact IH.
Qed.

(** C4, amended.  When the matcher returns a limit, the limit is the
    integer that the [up_limit_kib] field of a rule of the rule set, or of
    the defaults, coerces to; so it is non-negative as soon as every such
    field that coerces to an integer coerces to a non-negative one.  The
    matcher itself does not clamp: the floor at zero is applied when the
    limit is submitted. *)
Theorem match_rules_limit_is_coerced_field (hosts : list string) (cfg : rules_cfg)
    (c : option value) (n : Z) :
  match_rules hosts cfg = Ok (c, Some n) ->
  (exists d v,
     (d ∈ default [] (cfg_rules cfg) \/ cfg_defaults cfg = Some d) /\
     d !! "up_limit_kib" = Some v /\ py_int v = Ok n) /\
  ((forall d v m,
      d ∈ default [] (cfg_rules cfg) \/ cfg_defaults cfg = Some d ->
      d !! "up_limit_kib" = Some v -> py_int v = Ok m -> 0 <= m) ->
   0 <= n).
Proof.
  intros Hres.
  assert (Horigin : exists d v,
     (d ∈ default [] (cfg_rules cfg) \/ cfg_defaults cfg = Some d) /\
     d !! "up_limit_kib" = Some v /\ py_int v = Ok n).
  { rewrite match_rules_scan in Hres.
    destruct (scan_hosts hosts _) as [[[c' l']|]|ex] eqn:Hscan; simpl in Hres;
      [| |discriminate].
    - injection Hres as -> ->.
      apply scan_hosts_limit in Hscan as (r & v & Hin & Hv & Hn).
      exists r, v. split; [by left|done].
    - apply apply_defaults_limit in Hres as (v & Hv & Hn).
      destruct (cfg_defaults cfg) as [d|] eqn:Hd; simpl in Hv.
      + exists d, v. split; [by right|done].
      + by rewrite lookup_empty in Hv. }
  split; [exact Horigin|].
  intros Hnonneg. destruct Horigin as (d & v & Hd & Hv & Hn). by eapply Hnonneg.
Qed.


Lemma match_rules_empty (hosts : list string) (defaults : option (gmap string value))
    (rules : option (list (gmap string value))) :
  default ∅ defaults = ∅ -> default [] rules = [] ->
  match_rules hosts {| cfg_defaults := defaults; cfg_rules := rules |} = Ok (None, None).
Proof.
  intros Hd Hr. rewrite match_rules_no_hit.
  - simpl. rewrite Hd, apply_defaults_eq. unfold dict_get. by rewrite !lookup_empty.
  - simpl. rewrite Hr. apply Forall_forall. intros; constructor.
Qed.

(** C2, at the failing input.  With no rule and the defaults
    [{"up_limit_kib": float("inf")}] (the YAML scalar [.inf]), no rule
    matches, and the coercion of the defaults limit is not degraded to an
    absent limit: [int] raises [OverflowError], which the handler for
    [TypeError] and [ValueError] does not catch, and [match_rules] raises. *)
Theorem match_rules_defaults_infinite_limit_raises :
  match_rules []
    {| cfg_defaults := Some {[ "up_limit_kib" := VFloat (S754_infinity false) ]};
       cfg_rules := Some [] |} = Raise OverflowError.
Proof. reflexivity. Qed.

End MatcherFacts.

(** ** The Tracker Hostname Extractor *)

Lemma unique_loop_app (l1 l2 : list string) (seen : gset string) (acc : list string) :
  unique_loop (l1 ++ l2) seen acc =
    unique_loop l2 (seen ∪ list_to_set l1) (unique_loop l1 seen acc).
Proof.
  revert seen acc. induction l1 as [|h l1 IH]; intros seen acc; simpl.
  - f_equal. set_solver.
  - case_bool_decide as Hh; rewrite IH; f_equal; set_solver.
Qed.

Lemma unique_loop_spec (l : list string) (seen : gset string) (acc : list string) :
  exists new, unique_loop l seen acc = acc ++ new /\ NoDup new /\
    forall x, x ∈ new <-> x ∈ l /\ x ∉ seen.
Proof.
  revert seen acc. induction l as [|h l IH]; intros seen acc; simpl.
  - exists []. rewrite app_nil_r. split; [done|]. split; [constructor|]. set_solver.
  - case_bool_decide as Hh.
    + destruct (IH ({[h]} ∪ seen) (acc ++ [h])) as (new & Heq & Hnd & Hin).
      exists (h :: new). rewrite Heq, <- app_assoc. split; [done|]. split.
      * constructor; [|done]. rewrite Hin. intros [_ Hx]. apply Hx.
        apply elem_of_union_l, elem_of_singleton_2. reflexivity.
      * intros x. rewrite !elem_of_cons, Hin, not_elem_of_union, not_elem_of_singleton.
        split.
        -- intros [-> | [Hx [Hne Hs]]]; [split; [by left|done] | split; [by right|done]].
        -- intros [[-> | Hx] Hs]; [by left|].
           destruct (decide (x = h)) as [->|Hne]; [by left|by right].
    + destruct (IH seen acc) as (new & Heq & Hnd & Hin).
      exists new. split; [done|]. split; [done|].
      intros x. rewrite Hin, elem_of_cons.
      split; [intros [? ?]; split; [by right|done]|].
      intros [[-> | ?] Hs]; [by destruct Hs|done].
Qed.


Section ExtractorFacts.
Context `{PyLib}.

(** One tracker adds its hostname, if it resolves to one, and never raises. *)
Lemma tracker_step_eq (hosts : list string) (tr : gmap string value) :
  tracker_step hosts tr =
    Ok (match tracker_hostname tr with Some h => hosts ++ [h] | None => hosts end).
Proof.
  unfold tracker_step, tracker_hostname, dict_get_default.
  destruct (tr !! "url") as [[| | | |url| |]|]; simpl; try done.
  - by destruct b.
  - by destruct (negb (n =? 0)%Z).
  - by destruct f.
  - destruct (String.eqb url ""); simpl; [done|].
    destruct (urlparse_hostname url) as [[h|]|]; simpl; try done.
    by destruct (String.eqb h "").
  - by destruct l.
  - by destruct (negb _).
Qed.

Lemma collect_hosts_eq (trackers : list (gmap string value)) (hosts : list string) :
  collect_hosts trackers hosts = Ok (hosts ++ omap tracker_hostname trackers).
Proof.
  revert hosts. induction trackers as [|tr trackers IH]; intros hosts; simpl.
  - by rewrite app_nil_r.
  - rewrite tracker_step_eq. simpl. rewrite IH.
    destruct (tracker_hostname tr); [|done]. by rewrite <- app_assoc.
Qed.

(** C5.  For every list of tracker records the extractor returns a list
    [out] in which each hostname the records resolve to stands exactly
    once ([NoDup out], and [out] has the same elements as the list [hosts]
    of the hostnames in input order, whatever URLs they came from), in the
    order of first appearance: what stands before a hostname [h] in [out]
    is exactly what appears in [hosts] before the first occurrence of
    [h]. *)
Theorem extract_hostnames_once_in_first_appearance_order
    (trackers : list (gmap string value)) :
  exists out, extract_hostnames_from_trackers trackers = Ok out /\
    let hosts := omap tracker_hostname trackers in
    NoDup out /\
    (forall h, h ∈ out <-> h ∈ hosts) /\
    (forall o1 h o2, out = o1 ++ h :: o2 ->
       exists l1 l2, hosts = l1 ++ h :: l2 /\ (h ∉ l1) /\ (forall x, x ∈ o1 <-> x ∈ l1)).
Proof.
  unfold extract_hostnames_from_trackers. rewrite collect_hosts_eq. simpl.
  set (hosts := omap tracker_hostname trackers).
  exists (unique_loop hosts ∅ []). split; [done|].
  destruct (unique_loop_spec hosts ∅ []) as (out & Heq & Hnd & Hin).
  simpl in Heq. rewrite Heq.
  split; [done|]. split; [intros h; rewrite Hin; set_solver|].
  intros o1 h o2 Hout.
  assert (Hh : h ∈ hosts) by (apply Hin; rewrite Hout; set_solver).
  apply list_elem_of_split_l in Hh as (l1 & l2 & Hsplit & Hl1).
  exists l1, l2. split; [done|]. split; [done|].
  pose proof Heq as Heq'. rewrite Hsplit, unique_loop_app in Heq'.
  destruct (unique_loop_spec l1 ∅ []) as (u1 & Hu1 & Hnd1 & Hin1).
  simpl in Hu1. rewrite Hu1 in Heq'. simpl in Heq'.
  rewrite bool_decide_eq_true_2 in Heq' by set_solver.
  destruct (unique_loop_spec l2 ({[h]} ∪ (∅ ∪ list_to_set l1)) (u1 ++ [h]))
    as (u2 & Hu2 & Hnd2 & Hin2).
  rewrite Hu2, <- app_assoc in Heq'. simpl in Heq'.
  assert (Ho1 : h ∉ o1).
  { rewrite Hout in Hnd. apply NoDup_app in Hnd as (_ & Hdisj & _).
    intros Hho1. apply (Hdisj h Hho1). left. }
  assert (Hhu1 : h ∉ u1) by (rewrite Hin1; set_solver).
  rewrite Hout in Heq'.
  destruct (not_elem_of_app_cons_inv_l h h u1 u2 o1 o2 Ho1 Hhu1 Heq') as (-> & _ & _).
  intros x. rewrite Hin1. set_solver.
Qed.

(** C6.  The extractor never raises: it returns a list for every list of
    tracker records, the empty list for the empty list, and a record whose
    [url] is empty or missing, or cannot be parsed, or has no hostname, is
    skipped: the result is the one of the list without the record. *)
Theorem extract_hostnames_never_raises (trackers : list (gmap string value)) :
  (exists out, extract_hostnames_from_trackers trackers = Ok out) /\
  extract_hostnames_from_trackers [] = Ok [] /\
  (forall (ts1 ts2 : list (gmap string value)) (tr : gmap string value),
     truthy (dict_get_default tr "url" (VStr "")) = false \/
     (exists ex, urlparse_hostname_of (dict_get_default tr "url" (VStr "")) = Raise ex) \/
     (exists h, urlparse_hostname_of (dict_get_default tr "url" (VStr "")) = Ok h /\
        hostname_truthy h = false) ->
     extract_hostnames_from_trackers (ts1 ++ tr :: ts2) =
     extract_hostnames_from_trackers (ts1 ++ ts2)).
Proof.
  split; [|split].
  - unfold extract_hostnames_from_trackers. rewrite collect_hosts_eq. simpl. eauto.
  - reflexivity.
  - intros ts1 ts2 tr Hskip.
    assert (Hnone : tracker_hostname tr = None).
    { unfold tracker_hostname, dict_get_default, urlparse_hostname_of in *.
      destruct (tr !! "url") as [[| | | |url| |]|]; simpl in *; try done.
      destruct (String.eqb url ""); [done|].
      destruct Hskip as [Hf | [[ex Hex] | (h & Hh & Ht)]]; [done| |].
      - by destruct (urlparse_hostname url).
      - destruct (urlparse_hostname url) as [[h'|]|]; try done.
        injection Hh as <-. simpl in Ht. by destruct (String.eqb h' ""). }
    unfold extract_hostnames_from_trackers. rewrite !collect_hosts_eq. simpl.
    by rewrite !omap_app; simpl; rewrite Hnone.
Qed.

End ExtractorFacts.

(** ** The remote client and the process *)

Section ClientFacts.
Context `{PyLib}.
Variable e : env.

Lemma limit_bytes_negative (p : positive) : limit_bytes (Z.neg p) = 0.
Proof. unfold limit_bytes. lia. Qed.

(** C7.  For every decided limit, [qb_set_upload_limit] sends one request,
    whose [limit] field is the limit in KiB/s times 1024, floored at zero,
    written in decimal: 500 is submitted as 512000, 0 as 0 and every
    negative limit as 0. *)
Theorem upload_limit_submitted_in_bytes (s : session) (base_url : string)
    (torrent_hash : value) (limit : Z) (w : world) :
  calls (snd (qb_set_upload_limit e s base_url torrent_hash (Some limit) w)) =
    calls w ++ [upload_limit_request s base_url torrent_hash (Z.max 0 (limit * 1024))] /\
  str_of_int (Z.max 0 (500 * 1024)) = "512000" /\
  Z.max 0 (0 * 1024) = 0 /\
  (forall p : positive, Z.max 0 (Z.neg p * 1024) = 0).
Proof.
  split; [|split; [reflexivity|split; [reflexivity|intros p; lia]]].
  unfold qb_set_upload_limit, session_post, send, mbind, prog_bind, limit_bytes,
    upload_limit_request.
  destruct (remote e _ _) as [resp|ex]; [|reflexivity].
  destruct (negb _); reflexivity.
Qed.

Lemma qb_login_missing (s : session) (base_url : string) (username password : option string)
    (w : world) :
  str_missing username || str_missing password = true ->
  qb_login e s base_url username password w =
    (Raise (SystemExit 2),
     {| calls := calls w; clock_reads := clock_reads w; sleeps := sleeps w;
        stderr := stderr w ++ ["Error: Missing username/password. Provide --username/--password or env QBT_USERNAME/QBT_PASSWORD."];
        stdout := stdout w |}).
Proof. intros Hm. unfold qb_login. rewrite Hm. reflexivity. Qed.

Lemma qb_login_rejected (s : session) (base_url : string) (username password : option string)
    (w : world) (resp : response) :
  str_missing username || str_missing password = false ->
  remote e (length (calls w))
    {| req_method := POST; req_url := base_url +:+ "/api/v2/auth/login";
       req_params := [];
       req_data := [("username", value_of_opt_str username);
                    ("password", value_of_opt_str password)];
       req_files := []; req_verify := verify s |} = Ok resp ->
  status_code resp <> 200 \/ text resp <> "Ok." ->
  qb_login e s base_url username password w =
    (Raise (SystemExit 1),
     {| calls := calls w ++
          [{| req_method := POST; req_url := base_url +:+ "/api/v2/auth/login";
              req_params := [];
              req_data := [("username", value_of_opt_str username);
                           ("password", value_of_opt_str password)];
              req_files := []; req_verify := verify s |}];
        clock_reads := clock_reads w; sleeps := sleeps w;
        stderr := stderr w ++
          ["Error: Login failed (status " +:+ str_of_int (status_code resp)
           +:+ "): " +:+ text resp];
        stdout := stdout w |}).
Proof.
  intros Hm Hresp Hrej. unfold qb_login. rewrite Hm.
  unfold session_post, send, mbind, prog_bind. rewrite Hresp.
  assert (Hbad : negb (status_code resp =? 200)%Z || negb (String.eqb (text resp) "Ok.") = true).
  { destruct Hrej as [Hs | Ht].
    - apply Z.eqb_neq in Hs. by rewrite Hs.
    - apply String.eqb_neq in Ht. rewrite Ht. by rewrite orb_true_r. }
  rewrite Hbad. reflexivity.
Qed.

Lemma main_login_raises (fuel : nat) (a : args) (w w' : world) (ex : exn) :
  qb_login e {| verify := negb (arg_insecure a) |} (arg_host a)
    (arg_username a) (arg_password a) w = (Raise ex, w') ->
  main e fuel a w = Some (Raise ex, w').
Proof.
  intros Hl. unfold main, main_setup, mbind, prog_bind. by rewrite Hl.
Qed.

(** C9.  When the username or the password is absent (or empty), the run
    exits with status 2 and has sent no request; when both are present and
    the remote client rejects the login (a status other than 200 or a body
    other than ["Ok."]), the run exits with status 1, the login being the
    only request sent. *)
Theorem login_exit_codes (fuel : nat) (a : args) :
  (str_missing (arg_username a) = true \/ str_missing (arg_password a) = true ->
   exists w', main e fuel a world0 = Some (Raise (SystemExit 2), w') /\
     exit_status (Raise (SystemExit 2)) = 2 /\ calls w' = []) /\
  (forall resp,
     str_missing (arg_username a) = false -> str_missing (arg_password a) = false ->
     remote e 0%nat (login_request a) = Ok resp ->
     status_code resp <> 200 \/ text resp <> "Ok." ->
     exists w', main e fuel a world0 = Some (Raise (SystemExit 1), w') /\
       exit_status (Raise (SystemExit 1)) = 1 /\ calls w' = [login_request a]).
Proof.
  split.
  - intros Hm. eexists. split; [|split; [reflexivity|]].
    + apply main_login_raises, qb_login_missing.
      destruct Hm as [-> | ->]; [done|by rewrite orb_true_r].
    + reflexivity.
  - intros resp Hu Hp Hresp Hrej. eexists. split; [|split; [reflexivity|]].
    + apply main_login_raises, (qb_login_rejected _ _ _ _ _ resp); [by rewrite Hu, Hp|exact Hresp|exact Hrej].
    + reflexivity.
Qed.

(** C10.  Status 200 alone does not make a login succeed: when the answer
    to the login has status 200 and a body other than ["Ok."], the run
    reports the failed login and exits with status 1 after that one
    request. *)
Theorem login_needs_ok_body (fuel : nat) (a : args) (resp : response) :
  str_missing (arg_username a) = false -> str_missing (arg_password a) = false ->
  remote e 0%nat (login_request a) = Ok resp ->
  status_code resp = 200 -> text resp <> "Ok." ->
  exists w', main e fuel a world0 = Some (Raise (SystemExit 1), w') /\
    exit_status (Raise (SystemExit 1)) = 1 /\
    calls w' = [login_request a] /\
    stderr w' = ["Error: Login failed (status 200): " +:+ text resp].
Proof.
  intros Hu Hp Hresp Hs Ht. eexists. split; [|split; [reflexivity|]].
  - apply main_login_raises, (qb_login_rejected _ _ _ _ _ resp);
      [by rewrite Hu, Hp|exact Hresp|by right].
  - rewrite Hs. split; reflexivity.
Qed.

End ClientFacts.

Section PollFacts.
Context `{PyLib}.
Variable e : env.

Lemma qb_find_empty (s : session) (base_url tag : string) (w : world) :
  empty_answer e (find_request s base_url tag) (length (calls w)) ->
  exists v, truthy v = false /\
    qb_find_torrents_by_tag e s base_url tag w =
      (Ok v, record_call (find_request s base_url tag) w).
Proof.
  intros (resp & v & Hresp & Hs & Hj & Hv). exists v. split; [done|].
  unfold qb_find_torrents_by_tag, session_get, send, mbind, prog_bind.
  fold (find_request s base_url tag). rewrite Hresp, Hs. simpl.
  unfold lift. by rewrite Hj.
Qed.

Lemma await_registration_timeout (n : nat) :
  forall (fuel : nat) (s : session) (base_url tag : string) (deadline : timestamp)
         (torrents : value) (w : world),
  (forall k, (k < n)%nat ->
     time_lt (clock e (clock_reads w + k)) deadline = true /\
     empty_answer e (find_request s base_url tag) (length (calls w) + k)) ->
  time_lt (clock e (clock_reads w + n)) deadline = false ->
  truthy torrents = false ->
  (n < fuel)%nat ->
  exists torrents' w',
    await_registration e fuel s base_url tag deadline torrents w = Some (Ok torrents', w') /\
    truthy torrents' = false /\
    calls w' = calls w ++ replicate n (find_request s base_url tag) /\
    clock_reads w' = (clock_reads w + n + 1)%nat /\
    sleeps w' = (sleeps w + n)%nat /\
    stderr w' = stderr w /\ stdout w' = stdout w.
Proof.
  induction n as [|n IH]; intros fuel s base_url tag deadline torrents w Hpoll Hend Hfalsy Hfuel.
  - destruct fuel as [|fuel]; [lia|]. simpl.
    rewrite Nat.add_0_r in Hend. rewrite Hend.
    exists torrents, (record_clock_read w). simpl.
    rewrite app_nil_r. repeat split; try done; lia.
  - destruct fuel as [|fuel]; [lia|]. simpl.
    destruct (Hpoll 0%nat ltac:(lia)) as [Hlt Hans].
    rewrite Nat.add_0_r in Hlt, Hans. rewrite Hlt.
    destruct (qb_find_empty s base_url tag (record_clock_read w) Hans) as (v & Hv & Hfind).
    rewrite Hfind, Hv.
    destruct (IH fuel s base_url tag deadline v
                (record_sleep (record_call (find_request s base_url tag) (record_clock_read w))))
      as (t' & w' & Hrun & Ht' & Hcalls & Hreads & Hsleeps & Herr & Hout).
    + intros k Hk. simpl. rewrite length_app. simpl.
      destruct (Hpoll (S k) ltac:(lia)) as [Hlt' Hans'].
      rewrite Nat.add_succ_r in Hlt'.
      replace (length (calls w) + 1 + k)%nat with (length (calls w) + S k)%nat by lia.
      by split.
    + simpl. by rewrite Nat.add_succ_r in Hend.
    + done.
    + lia.
    + exists t', w'. rewrite Hrun. simpl in *.
      rewrite Hcalls, Hreads, Hsleeps, Herr, Hout, <- app_assoc. simpl.
      repeat split; try done; lia.
Qed.

Lemma main_finish_not_found (a : args) (s : session) (cfg : rules_cfg) (tag : string)
    (torrents : value) (w : world) :
  truthy torrents = false ->
  main_finish e a s cfg tag torrents w =
    (Raise (SystemExit 1),
     record_err "Error: Added torrent not found by tag within timeout." w).
Proof.
  intros Hf. unfold main_finish, mbind, prog_bind. rewrite Hf. reflexivity.
Qed.


Lemma qb_login_ok_inv (s : session) (base_url : string) (username password : option string)
    (w w' : world) (u : unit) :
  qb_login e s base_url username password w = (Ok u, w') ->
  w' = record_call
         {| req_method := POST; req_url := base_url +:+ "/api/v2/auth/login";
            req_params := [];
            req_data := [("username", value_of_opt_str username);
                         ("password", value_of_opt_str password)];
            req_files := []; req_verify := verify s |} w.
Proof.
  unfold qb_login. run_prog. intros Hrun.
  repeat (case_match; simplify_eq/=); done.
Qed.

Lemma load_rules_ok_inv (path : string) (w w' : world) (cfg : rules_cfg) :
  load_rules e path w = (Ok cfg, w') -> w' = w.
Proof.
  unfold load_rules. run_prog. intros Hrun.
  repeat (case_match; simplify_eq/=); done.
Qed.

Lemma qb_add_source_ok_inv (s : session) (base_url source tag : string) (paused : bool)
    (w w' : world) (u : unit) :
  qb_add_source e s base_url source tag paused w = (Ok u, w') ->
  exists rq, w' = record_call rq w /\ req_url rq = base_url +:+ "/api/v2/torrents/add".
Proof.
  unfold qb_add_source. run_prog. intros Hrun.
  repeat (case_match; simplify_eq/=); eexists; split; reflexivity.
Qed.

Lemma main_setup_ok_inv (a : args) (w w1 : world) (s : session) (cfg : rules_cfg)
    (tag : string) (deadline : timestamp) :
  main_setup e a w = (Ok (s, cfg, tag, deadline), w1) ->
  s = {| verify := negb (arg_insecure a) |} /\
  tag = "qbt-rules-" +:+ uuid4 e /\
  deadline = time_add (clock e (clock_reads w)) (arg_timeout a) /\
  clock_reads w1 = S (clock_reads w) /\ sleeps w1 = sleeps w /\
  stderr w1 = stderr w /\ stdout w1 = stdout w /\
  exists add_rq,
    calls w1 = calls w ++ [login_request a; add_rq] /\
    req_url add_rq = arg_host a +:+ "/api/v2/torrents/add".
Proof.
  unfold main_setup, mbind, prog_bind. intros Hrun.
  destruct (qb_login e _ _ _ _ w) as [[u|ex] wl] eqn:Hlogin; [|discriminate].
  apply qb_login_ok_inv in Hlogin as ->.
  destruct (load_rules e _ _) as [[cfg'|ex] wr] eqn:Hload; [|discriminate].
  apply load_rules_ok_inv in Hload as ->.
  destruct (qb_add_source e _ _ _ _ _ _) as [[u'|ex] wa] eqn:Hadd; [|discriminate].
  apply qb_add_source_ok_inv in Hadd as (rq & -> & Hurl).
  unfold time_time, mret, prog_ret in Hrun. simplify_eq/=.
  repeat split; try done.
  exists rq. split; [|done]. by rewrite <- app_assoc.
Qed.

(** C8.  When the credentials, the rules and the source were accepted,
    each of the first [n] reads of the clock in the poll loop is before the
    deadline and is answered with an empty list of torrents, and the next
    read is not before the deadline, then the run (with fuel for more than
    [n] turns of the loop) reports that the torrent was not found, exits
    with status 1, and has sent the login, the source and the [n] polls and
    nothing else: no request for trackers, categories, the upload limit,
    the tag or the resume. *)
Theorem registration_timeout_stops_run (a : args) (n fuel : nat) (s : session)
    (cfg : rules_cfg) (tag : string) (deadline : timestamp) (w1 : world) :
  main_setup e a world0 = (Ok (s, cfg, tag, deadline), w1) ->
  (forall k, (k < n)%nat ->
     time_lt (clock e (clock_reads w1 + k)) deadline = true /\
     empty_answer e (find_request s (arg_host a) tag) (length (calls w1) + k)) ->
  time_lt (clock e (clock_reads w1 + n)) deadline = false ->
  (n < fuel)%nat ->
  exists w',
    main e fuel a world0 = Some (Raise (SystemExit 1), w') /\
    exit_status (Raise (SystemExit 1)) = 1 /\
    stderr w' = ["Error: Added torrent not found by tag within timeout."] /\
    (exists add_rq,
       req_url add_rq = arg_host a +:+ "/api/v2/torrents/add" /\
       calls w' = [login_request a; add_rq] ++
                  replicate n (find_request s (arg_host a) tag)).
Proof.
  intros Hsetup Hpoll Hend Hfuel.
  destruct (main_setup_ok_inv _ _ _ _ _ _ _ Hsetup)
    as (_ & _ & _ & _ & _ & Herr1 & _ & add_rq & Hcalls1 & Hurl).
  destruct (await_registration_timeout n fuel s (arg_host a) tag deadline (VList []) w1
              Hpoll Hend eq_refl Hfuel)
    as (t' & w2 & Hrun & Ht' & Hcalls & _ & _ & Herr & _).
  exists (record_err "Error: Added torrent not found by tag within timeout." w2).
  split; [|split; [reflexivity|split]].
  - unfold main. rewrite Hsetup, Hrun. by rewrite main_finish_not_found.
  - simpl. by rewrite Herr, Herr1.
  - exists add_rq. split; [done|]. simpl. by rewrite Hcalls, Hcalls1.
Qed.

End PollFacts.

(** ** What a run does to the world *)

Section Keeps.
Variable R : world -> world -> Prop.
Context `{!PreOrder R}.

Lemma keeps_ret {A} (a : A) : keeps R (mret a).
Proof. intros w r w' [= <- <-]. reflexivity. Qed.

Lemma keeps_raise {A} (ex : exn) : keeps R (raise ex : prog A).
Proof. intros w r w' [= <- <-]. reflexivity. Qed.

Lemma keeps_lift {A} (res : result A) : keeps R (lift res).
Proof. intros w r w' [= <- <-]. reflexivity. Qed.

Lemma keeps_bind {A B} (m : prog A) (k : A -> prog B) :
  keeps R m -> (forall a, keeps R (k a)) -> keeps R (m ≫= k).
Proof.
  intros Hm Hk w r w'. unfold mbind, prog_bind.
  destruct (m w) as [[a|ex] w1] eqn:Hrun.
  - intros Hrun'. transitivity w1; [by eapply Hm | by eapply Hk].
  - intros [= <- <-]. by eapply Hm.
Qed.

End Keeps.

#[global] Instance sends_preorder (P : request -> Prop) : PreOrder (sends P).
Proof.
  split.
  - intros w. exists []. by rewrite app_nil_r.
  - intros w1 w2 w3 (n1 & H1 & F1) (n2 & H2 & F2). exists (n1 ++ n2).
    split; [by rewrite H2, H1, app_assoc | by apply Forall_app].
Qed.

#[global] Instance same_stdout_preorder : PreOrder same_stdout.
Proof.
  split; [by intros w | intros w1 w2 w3 H1 H2; unfold same_stdout in *; congruence].
Qed.

Section KeepsPrimitives.
Context `{PyLib}.
Variable e : env.

Lemma sends_print_err (P : request -> Prop) (line : string) :
  keeps (sends P) (print_err line).
Proof. intros w r w' [= <- <-]. exists []. by rewrite app_nil_r. Qed.

Lemma sends_print_out (P : request -> Prop) (line : string) :
  keeps (sends P) (print_out line).
Proof. intros w r w' [= <- <-]. exists []. by rewrite app_nil_r. Qed.

Lemma sends_time_sleep (P : request -> Prop) : keeps (sends P) time_sleep.
Proof. intros w r w' [= <- <-]. exists []. by rewrite app_nil_r. Qed.

Lemma sends_time_time (P : request -> Prop) : keeps (sends P) (time_time e).
Proof. intros w r w' [= <- <-]. exists []. by rewrite app_nil_r. Qed.

Lemma sends_send (P : request -> Prop) (rq : request) :
  P rq -> keeps (sends P) (send e rq).
Proof. intros HP w r w' [= <- <-]. exists [rq]. split; [done | by constructor]. Qed.

Lemma stdout_print_err (line : string) : keeps same_stdout (print_err line).
Proof. by intros w r w' [= <- <-]. Qed.

Lemma stdout_time_sleep : keeps same_stdout time_sleep.
Proof. by intros w r w' [= <- <-]. Qed.

Lemma stdout_time_time : keeps same_stdout (time_time e).
Proof. by intros w r w' [= <- <-]. Qed.

Lemma stdout_send (rq : request) : keeps same_stdout (send e rq).
Proof. by intros w r w' [= <- <-]. Qed.

End KeepsPrimitives.

(** ** The requests of each client function *)

Ltac keeps_step :=
  first
    [ apply keeps_bind; [typeclasses eauto| |intros ?]
    | apply keeps_ret; typeclasses eauto
    | apply keeps_raise; typeclasses eauto
    | apply keeps_lift; typeclasses eauto
    | apply sends_print_err | apply sends_print_out
    | apply sends_time_sleep | apply sends_time_time
    | apply stdout_print_err | apply stdout_time_sleep | apply stdout_time_time
    | apply stdout_send
    | match goal with
      | |- keeps _ (if ?b then _ else _) => destruct b
      | |- keeps _ (match ?x with _ => _ end) => destruct x
      end ].

Section ApiRequests.
Context `{PyLib}.
Variable e : env.
Variables (s : session) (base_url tag : string).

Abbreviation api := (api_request s base_url tag).

Lemma qb_login_sends (P : request -> Prop) (username password : option string) :
  P (session_login_request s base_url username password) ->
  keeps (sends P) (qb_login e s base_url username password).
Proof.
  intros HP. unfold qb_login, session_post, sys_exit.
  repeat keeps_step. by apply sends_send.
Qed.

Lemma qb_add_source_sends (source : string) :
  keeps (sends api) (qb_add_source e s base_url source tag true).
Proof.
  unfold qb_add_source, session_post, sys_exit.
  repeat keeps_step; apply sends_send; constructor.
Qed.

Lemma load_rules_sends (P : request -> Prop) (path : string) :
  keeps (sends P) (load_rules e path).
Proof. unfold load_rules, sys_exit. repeat keeps_step. Qed.

Lemma qb_find_torrents_by_tag_sends :
  keeps (sends api) (qb_find_torrents_by_tag e s base_url tag).
Proof.
  unfold qb_find_torrents_by_tag, session_get.
  repeat keeps_step. apply sends_send. constructor.
Qed.

Lemma qb_get_trackers_sends (torrent_hash : value) :
  keeps (sends api) (qb_get_trackers e s base_url torrent_hash).
Proof.
  unfold qb_get_trackers, session_get.
  repeat keeps_step. apply sends_send. constructor.
Qed.

Lemma qb_get_categories_sends : keeps (sends api) (qb_get_categories e s base_url).
Proof.
  unfold qb_get_categories, session_get.
  repeat keeps_step. apply sends_send. constructor.
Qed.

Lemma qb_create_category_if_missing_sends (category : value) :
  keeps (sends api) (qb_create_category_if_missing e s base_url category).
Proof.
  unfold qb_create_category_if_missing, session_post.
  destruct (truthy category) eqn:Hc; simpl; [|keeps_step].
  keeps_step; [apply qb_get_categories_sends|].
  repeat keeps_step. apply sends_send. by constructor.
Qed.

Lemma qb_set_category_sends (torrent_hash category : value) :
  keeps (sends api) (qb_set_category e s base_url torrent_hash category).
Proof.
  unfold qb_set_category, session_post.
  destruct (truthy category) eqn:Hc; simpl; [|keeps_step].
  repeat keeps_step. apply sends_send. by constructor.
Qed.

Lemma qb_set_upload_limit_sends (torrent_hash : value) (limit : option Z) :
  keeps (sends api) (qb_set_upload_limit e s base_url torrent_hash limit).
Proof.
  unfold qb_set_upload_limit, session_post.
  destruct limit as [limit|]; [|keeps_step].
  repeat keeps_step. apply sends_send.
  apply (api_upload_limit s base_url tag torrent_hash (limit_bytes limit)).
  unfold limit_bytes. lia.
Qed.

Lemma qb_remove_tag_sends (torrent_hash : value) :
  keeps (sends api) (qb_remove_tag e s base_url torrent_hash tag).
Proof.
  unfold qb_remove_tag, session_post.
  repeat keeps_step. apply sends_send. constructor.
Qed.

Lemma qb_resume_sends (torrent_hash : value) :
  keeps (sends api) (qb_resume e s base_url torrent_hash).
Proof.
  unfold qb_resume, session_post.
  repeat keeps_step. apply sends_send. constructor.
Qed.

End ApiRequests.

(** ** The requests of a whole run *)

Lemma bind_inv {A B} (m : prog A) (k : A -> prog B) (w w' : world) (r : result B) :
  (m ≫= k) w = (r, w') ->
  (exists ex, m w = (Raise ex, w') /\ r = Raise ex) \/
  (exists a w1, m w = (Ok a, w1) /\ k a w1 = (r, w')).
Proof.
  unfold mbind, prog_bind. destruct (m w) as [[a|ex] w1].
  - intros Hk. right. by exists a, w1.
  - intros [= <- <-]. left. by exists ex.
Qed.

Lemma string_prefix_app (a b : string) : String.prefix a (a +:+ b) = true.
Proof.
  induction a as [|c a IH]; simpl; [by destruct b|].
  destruct (Ascii.ascii_dec c c); [exact IH|done].
Qed.

Section MainShape.
Context `{PyLib}.
Variable e : env.

Lemma qb_login_calls (s : session) (base_url : string) (username password : option string)
    (w w1 : world) (r : result unit) :
  qb_login e s base_url username password w = (r, w1) ->
  (calls w1 = calls w /\ r = Raise (SystemExit 2)) \/
  calls w1 = calls w ++ [session_login_request s base_url username password].
Proof.
  unfold qb_login. run_prog. intros Hrun.
  repeat (case_match; simplify_eq/=); auto.
Qed.

Lemma await_registration_sends (s : session) (base_url tag : string) (fuel : nat) :
  forall (deadline : timestamp) (torrents : value) (w w' : world) (r : result value),
  await_registration e fuel s base_url tag deadline torrents w = Some (r, w') ->
  sends (api_request s base_url tag) w w'.
Proof.
  induction fuel as [|fuel IH]; intros deadline torrents w w' r; [discriminate|].
  simpl.
  assert (Hclock : sends (api_request s base_url tag) w (record_clock_read w)).
  { exists []. simpl. by rewrite app_nil_r. }
  destruct (time_lt _ deadline).
  - destruct (qb_find_torrents_by_tag e s base_url tag (record_clock_read w))
      as [[v|ex] w2] eqn:Hfind.
    + apply qb_find_torrents_by_tag_sends in Hfind.
      destruct (truthy v).
      * intros [= <- <-]. by etransitivity.
      * intros Hrest. apply IH in Hrest.
        etransitivity; [exact Hclock|]. etransitivity; [exact Hfind|].
        etransitivity; [|exact Hrest].
        exists []. simpl. by rewrite app_nil_r.
    + intros [= <- <-]. apply qb_find_torrents_by_tag_sends in Hfind. by etransitivity.
  - intros [= <- <-]. exact Hclock.
Qed.

Lemma main_finish_sends (a : args) (s : session) (cfg : rules_cfg) (tag : string)
    (torrents : value) :
  keeps (sends (api_request s (arg_host a) tag)) (main_finish e a s cfg tag torrents).
Proof.
  unfold main_finish, sys_exit.
  repeat first
    [ apply qb_get_trackers_sends | apply qb_create_category_if_missing_sends
    | apply qb_set_category_sends | apply qb_set_upload_limit_sends
    | apply qb_remove_tag_sends | apply qb_resume_sends
    | keeps_step ].
Qed.

(** The requests of a run: nothing, or the login followed by requests of
    the API under the session, the host and the marker tag of the run. *)
Lemma main_calls_shape (fuel : nat) (a : args) (w w' : world) (r : result unit) :
  main e fuel a w = Some (r, w') ->
  calls w' = calls w \/
  exists rest,
    calls w' = calls w ++ login_request a :: rest /\
    Forall (api_request {| verify := negb (arg_insecure a) |} (arg_host a)
              ("qbt-rules-" +:+ uuid4 e)) rest.
Proof.
  set (s := {| verify := negb (arg_insecure a) |}).
  set (tag := "qbt-rules-" +:+ uuid4 e).
  unfold main.
  destruct (main_setup e a w) as [[[[[s' cfg] tag'] deadline]|ex] w1] eqn:Hsetup.
  - unfold main_setup in Hsetup.
    apply bind_inv in Hsetup as [(ex & _ & [=]) | ([] & wl & Hlogin & Hrest)].
    apply qb_login_calls in Hlogin as [[_ [=]] | Hlogin].
    assert (Hsends : sends (api_request s (arg_host a) tag) wl w1 /\ s' = s /\ tag' = tag).
    { apply bind_inv in Hrest as [(ex & _ & [=]) | (cfg' & wr & Hload & Hrest)].
      apply (load_rules_sends e (api_request s (arg_host a) tag)) in Hload.
      apply bind_inv in Hrest as [(ex & _ & [=]) | ([] & wa & Hadd & Hrest)].
      apply qb_add_source_sends in Hadd.
      apply bind_inv in Hrest as [(ex & _ & [=]) | (now & wt & Htime & Hrest)].
      apply (sends_time_time e (api_request s (arg_host a) tag)) in Htime.
      injection Hrest as <- <- <- <- <-.
      split; [|done]. etransitivity; [exact Hload|]. etransitivity; [exact Hadd|]. exact Htime. }
    destruct Hsends as (Hsends & -> & ->).
    destruct (await_registration e fuel s (arg_host a) tag deadline (VList []) w1)
      as [[[torrents|ex] w2]|] eqn:Hpoll; [| |discriminate].
    + destruct (main_finish e a s cfg tag torrents w2) as [r' w3] eqn:Hfinish.
      intros [= <- <-]. right.
      apply await_registration_sends in Hpoll. apply main_finish_sends in Hfinish.
      destruct Hsends as (n1 & E1 & F1), Hpoll as (n2 & E2 & F2), Hfinish as (n3 & E3 & F3).
      exists (n1 ++ n2 ++ n3). split.
      * rewrite E3, E2, E1, Hlogin. by rewrite <- !app_assoc.
      * by rewrite !Forall_app.
    + intros [= <- <-]. right.
      apply await_registration_sends in Hpoll.
      destruct Hsends as (n1 & E1 & F1), Hpoll as (n2 & E2 & F2).
      exists (n1 ++ n2). split.
      * rewrite E2, E1, Hlogin. by rewrite <- !app_assoc.
      * by rewrite Forall_app.
  - intros [= <- <-]. unfold main_setup in Hsetup.
    apply bind_inv in Hsetup as [(ex' & Hlogin & _) | ([] & wl & Hlogin & Hrest)].
    + apply qb_login_calls in Hlogin as [[Hc _] | Hlogin]; [by left|].
      right. exists []. split; [exact Hlogin | constructor].
    + apply qb_login_calls in Hlogin as [[_ [=]] | Hlogin].
      right.
      assert (Hsends : sends (api_request s (arg_host a) tag) wl w1).
      { apply bind_inv in Hrest as [(ex1 & Hload & _) | (cfg' & wr & Hload & Hrest)];
          [by apply (load_rules_sends e (api_request s (arg_host a) tag)) in Hload|].
        apply (load_rules_sends e (api_request s (arg_host a) tag)) in Hload.
        apply bind_inv in Hrest as [(ex1 & Hadd & _) | ([] & wa & Hadd & Hrest)];
          [apply qb_add_source_sends in Hadd; by etransitivity|].
        apply qb_add_source_sends in Hadd.
        apply bind_inv in Hrest as [(ex1 & Htime & _) | (now & wt & Htime & Hrest)];
          [discriminate|].
        discriminate. }
      destruct Hsends as (n1 & E1 & F1). exists n1. split; [|done].
      rewrite E1, Hlogin. by rewrite <- app_assoc.
Qed.

End MainShape.

Lemma string_app_inj (a b c : string) : a +:+ b = a +:+ c -> b = c.
Proof. induction a as [|x a IH]; simpl; [done|]. intros [= Heq]. by apply IH. Qed.

Lemma api_request_addressed (s : session) (base_url tag : string) (rq : request) :
  api_request s base_url tag rq -> addressed s base_url rq.
Proof. intros []; split; try reflexivity; apply string_prefix_app. Qed.

Lemma api_request_no_credentials (s : session) (base_url tag : string) (rq : request) :
  api_request s base_url tag rq -> carries_credentials rq = false.
Proof. by intros []. Qed.

Lemma api_request_add (s : session) (base_url tag : string) (rq : request) :
  api_request s base_url tag rq ->
  req_url rq = base_url +:+ "/api/v2/torrents/add" ->
  exists source,
    rq = add_magnet_request s base_url source tag true \/
    rq = add_file_request s base_url source tag true.
Proof.
  intros [] Hurl; simpl in Hurl; apply string_app_inj in Hurl; try discriminate; eauto.
Qed.

Section RunInvariants.
Context `{PyLib}.
Variable e : env.

(** X3.  Every request of a run, whatever its outcome, goes to the
    configured host (its URL starts with [args.host]) and carries the
    certificate setting of the session, [not args.insecure]. *)
Theorem run_requests_go_to_the_configured_host (fuel : nat) (a : args) (r : result unit)
    (w' : world) :
  main e fuel a world0 = Some (r, w') ->
  Forall (fun rq => req_verify rq = negb (arg_insecure a) /\
                    String.prefix (arg_host a) (req_url rq) = true) (calls w').
Proof.
  intros Hrun. apply main_calls_shape in Hrun as [-> | (rest & -> & Hrest)];
    [constructor|]. simpl.
  constructor; [split; [reflexivity | apply string_prefix_app]|].
  eapply Forall_impl; [exact Hrest|]. intros rq Hrq.
  by apply api_request_addressed in Hrq.
Qed.

(** X4.  The credentials are sent once: a request of a run that has a
    [username] or a [password] field is the first request, the login. *)
Theorem run_sends_credentials_once (fuel : nat) (a : args) (r : result unit) (w' : world)
    (i : nat) (rq : request) :
  main e fuel a world0 = Some (r, w') ->
  calls w' !! i = Some rq ->
  carries_credentials rq = true ->
  i = 0%nat /\ rq = login_request a.
Proof.
  intros Hrun Hi Hcred.
  apply main_calls_shape in Hrun as [Hnil | (rest & Hcalls & Hrest)].
  - rewrite Hnil in Hi. discriminate.
  - rewrite Hcalls in Hi. simpl in Hi. destruct i as [|i]; simpl in Hi.
    + by injection Hi as <-.
    + rewrite Forall_forall in Hrest.
      assert (Hin : rq ∈ rest) by (apply list_elem_of_lookup; eauto).
      apply Hrest, api_request_no_credentials in Hin. congruence.
Qed.

(** X5.  A request of a run to [/api/v2/torrents/add] submits the source
    paused and under the marker tag [qbt-rules-<uuid>] of the run. *)
Theorem run_submits_source_paused_and_tagged (fuel : nat) (a : args) (r : result unit)
    (w' : world) (rq : request) :
  main e fuel a world0 = Some (r, w') ->
  rq ∈ calls w' ->
  req_url rq = arg_host a +:+ "/api/v2/torrents/add" ->
  In ("paused", VStr "true") (req_data rq) /\
  In ("tags", VStr ("qbt-rules-" +:+ uuid4 e)) (req_data rq).
Proof.
  intros Hrun Hin Hurl.
  apply main_calls_shape in Hrun as [Hnil | (rest & Hcalls & Hrest)].
  - rewrite Hnil in Hin. by apply elem_of_nil in Hin.
  - rewrite Hcalls in Hin. simpl in Hin. apply elem_of_cons in Hin as [-> | Hin].
    + simpl in Hurl. apply string_app_inj in Hurl. discriminate.
    + rewrite Forall_forall in Hrest. apply Hrest in Hin.
      destruct (api_request_add _ _ _ _ Hin Hurl) as (source & [-> | ->]); simpl; auto.
Qed.

End RunInvariants.

(** ** Login, rules and source *)

Section SetupFacts.
Context `{PyLib}.
Variable e : env.

Lemma qb_login_accepted (s : session) (base_url : string) (username password : option string)
    (w : world) (resp : response) :
  str_missing username = false -> str_missing password = false ->
  remote e (length (calls w)) (session_login_request s base_url username password) = Ok resp ->
  status_code resp = 200 -> text resp = "Ok." ->
  qb_login e s base_url username password w =
    (Ok tt, record_call (session_login_request s base_url username password) w).
Proof.
  intros Hu Hp Hresp Hs Ht. unfold qb_login. rewrite Hu, Hp. simpl.
  run_prog. fold (session_login_request s base_url username password).
  by rewrite Hresp, Hs, Ht.
Qed.

Lemma load_rules_missing (path : string) (w : world) :
  isfile e path = false ->
  load_rules e path w =
    (Raise (SystemExit 2), record_err ("Error: Rules file not found: " +:+ path) w).
Proof. intros Hf. unfold load_rules. run_prog. by rewrite Hf. Qed.

Lemma load_rules_unparsable (path msg : string) (w : world) :
  isfile e path = true -> open_file e path = Ok tt ->
  yaml_safe_load e path = Raise (YAMLError msg) ->
  load_rules e path w =
    (Raise (SystemExit 2), record_err ("Error: Failed to parse YAML rules: " +:+ msg) w).
Proof. intros Hf Ho Hy. unfold load_rules. run_prog. by rewrite Hf, Ho, Hy. Qed.

Lemma load_rules_loaded (path : string) (loaded : option rules_cfg) (w : world) :
  isfile e path = true -> open_file e path = Ok tt ->
  yaml_safe_load e path = Ok loaded ->
  load_rules e path w =
    (Ok {| cfg_defaults := Some (default ∅ (loaded ≫= cfg_defaults));
           cfg_rules := Some (default [] (loaded ≫= cfg_rules)) |}, w).
Proof.
  intros Hf Ho Hy. unfold load_rules. run_prog. rewrite Hf, Ho, Hy. simpl.
  by destruct loaded as [[d rs]|].
Qed.

(** X6.  After an accepted login, a rules file that does not exist, or
    one that [yaml.safe_load] rejects with a [YAMLError], ends the run with
    [sys.exit(2)] and its error line; the login is the only request sent, so
    nothing has been added. *)
Theorem rules_file_errors_stop_the_run_after_login (fuel : nat) (a : args)
    (resp : response) :
  str_missing (arg_username a) = false -> str_missing (arg_password a) = false ->
  remote e 0%nat (login_request a) = Ok resp ->
  status_code resp = 200 -> text resp = "Ok." ->
  (isfile e (arg_config a) = false ->
   main e fuel a world0 =
     Some (Raise (SystemExit 2),
           record_err ("Error: Rules file not found: " +:+ arg_config a)
             (record_call (login_request a) world0))) /\
  (forall msg,
     isfile e (arg_config a) = true -> open_file e (arg_config a) = Ok tt ->
     yaml_safe_load e (arg_config a) = Raise (YAMLError msg) ->
     main e fuel a world0 =
       Some (Raise (SystemExit 2),
             record_err ("Error: Failed to parse YAML rules: " +:+ msg)
               (record_call (login_request a) world0))).
Proof.
  intros Hu Hp Hresp Hs Ht.
  pose proof (qb_login_accepted {| verify := negb (arg_insecure a) |} (arg_host a)
                _ _ world0 resp Hu Hp Hresp Hs Ht) as Hlogin.
  split.
  - intros Hf. unfold main, main_setup, mbind, prog_bind.
    rewrite Hlogin. by rewrite load_rules_missing.
  - intros msg Hf Ho Hy. unfold main, main_setup, mbind, prog_bind.
    rewrite Hlogin. by rewrite (load_rules_unparsable _ msg).
Qed.

(** X7.  [load_rules] changes nothing in the world, returns a rule set
    that has both keys, and filling in the missing keys changes no decision:
    [match_rules] on the loaded rule set is [match_rules] on the document as
    parsed (an empty document as [{}]). *)
Theorem load_rules_keeps_the_decision (path : string) (loaded : option rules_cfg)
    (w w' : world) (cfg : rules_cfg) (hosts : list string) :
  yaml_safe_load e path = Ok loaded ->
  load_rules e path w = (Ok cfg, w') ->
  w' = w /\
  is_Some (cfg_defaults cfg) /\ is_Some (cfg_rules cfg) /\
  match_rules hosts cfg =
    match_rules hosts (default {| cfg_defaults := None; cfg_rules := None |} loaded).
Proof.
  intros Hy Hload.
  destruct (isfile e path) eqn:Hf;
    [|rewrite load_rules_missing in Hload by done; discriminate].
  destruct (open_file e path) as [[]|ex] eqn:Ho.
  - rewrite (load_rules_loaded _ loaded) in Hload by done.
    injection Hload as <- <-. repeat split; eauto.
    destruct loaded as [[[d|] [rs|]]|]; reflexivity.
  - unfold load_rules in Hload. run_prog. rewrite Hf, Ho in Hload. discriminate.
Qed.

End SetupFacts.

Section SubmitAndPoll.
Context `{PyLib}.
Variable e : env.

(** X8.  A source that is neither a magnet URI nor an existing file ends
    the run with [sys.exit(2)] and the error line, after the login and the
    rules: nothing is submitted. *)
Theorem missing_source_file_submits_nothing (fuel : nat) (a : args) (resp : response)
    (loaded : option rules_cfg) :
  str_missing (arg_username a) = false -> str_missing (arg_password a) = false ->
  remote e 0%nat (login_request a) = Ok resp ->
  status_code resp = 200 -> text resp = "Ok." ->
  isfile e (arg_config a) = true -> open_file e (arg_config a) = Ok tt ->
  yaml_safe_load e (arg_config a) = Ok loaded ->
  String.prefix "magnet:?" (arg_source a) = false ->
  isfile e (arg_source a) = false ->
  main e fuel a world0 =
    Some (Raise (SystemExit 2),
          record_err ("Error: File not found: " +:+ arg_source a)
            (record_call (login_request a) world0)).
Proof.
  intros Hu Hp Hresp Hs Ht Hf Ho Hy Hmagnet Hsrc.
  pose proof (qb_login_accepted e {| verify := negb (arg_insecure a) |} (arg_host a)
                _ _ world0 resp Hu Hp Hresp Hs Ht) as Hlogin.
  unfold main, main_setup, mbind, prog_bind.
  rewrite Hlogin, (load_rules_loaded e _ loaded) by done.
  unfold qb_add_source. run_prog. by rewrite Hmagnet, Hsrc.
Qed.

(** X9.  A poll that is answered with a status other than 200 ends the
    poll loop with a [RuntimeError] at once: no sleep and no further poll,
    whatever time is left before the deadline. *)
Theorem failed_poll_is_not_retried (fuel : nat) (s : session) (base_url tag : string)
    (deadline : timestamp) (torrents : value) (w : world) (resp : response) :
  time_lt (clock e (clock_reads w)) deadline = true ->
  remote e (length (calls w)) (find_request s base_url tag) = Ok resp ->
  status_code resp <> 200 ->
  await_registration e (S fuel) s base_url tag deadline torrents w =
    Some (Raise (RuntimeError ("Failed to query torrents by tag: "
                               +:+ str_of_int (status_code resp) +:+ " " +:+ text resp)),
          record_call (find_request s base_url tag) (record_clock_read w)).
Proof.
  intros Hlt Hresp Hs. simpl. rewrite Hlt.
  unfold qb_find_torrents_by_tag. run_prog. fold (find_request s base_url tag).
  simpl. rewrite Hresp. apply Z.eqb_neq in Hs. by rewrite Hs.
Qed.

Lemma qb_find_answer (s : session) (base_url tag : string) (w : world)
    (resp : response) (v : value) :
  remote e (length (calls w)) (find_request s base_url tag) = Ok resp ->
  status_code resp = 200 -> json resp = Ok v ->
  qb_find_torrents_by_tag e s base_url tag w =
    (Ok v, record_call (find_request s base_url tag) w).
Proof.
  intros Hresp Hs Hj. unfold qb_find_torrents_by_tag. run_prog.
  fold (find_request s base_url tag). by rewrite Hresp, Hs, Hj.
Qed.

(** X10.  If the first [k] polls find nothing and poll [k + 1] lists a
    torrent, all before the deadline, the loop returns that payload after
    exactly [k + 1] polls, [k] sleeps and [k + 1] reads of the clock
    (given fuel for [k + 1] turns). *)
Theorem registration_found_after_empty_polls (k : nat) :
  forall (fuel : nat) (s : session) (base_url tag : string) (deadline : timestamp)
         (torrents : value) (w : world) (resp : response) (found : value),
  (forall i, (i <= k)%nat -> time_lt (clock e (clock_reads w + i)) deadline = true) ->
  (forall i, (i < k)%nat ->
     empty_answer e (find_request s base_url tag) (length (calls w) + i)) ->
  remote e (length (calls w) + k) (find_request s base_url tag) = Ok resp ->
  status_code resp = 200 -> json resp = Ok found -> truthy found = true ->
  (k < fuel)%nat ->
  exists w',
    await_registration e fuel s base_url tag deadline torrents w = Some (Ok found, w') /\
    calls w' = calls w ++ replicate (S k) (find_request s base_url tag) /\
    sleeps w' = (sleeps w + k)%nat /\
    clock_reads w' = (clock_reads w + k + 1)%nat.
Proof.
  induction k as [|k IH];
    intros fuel s base_url tag deadline torrents w resp found Hlt Hempty Hresp Hs Hj Hfound Hfuel.
  - destruct fuel as [|fuel]; [lia|]. simpl.
    pose proof (Hlt 0%nat ltac:(lia)) as Hlt0. rewrite Nat.add_0_r in Hlt0, Hresp.
    rewrite Hlt0, (qb_find_answer s base_url tag (record_clock_read w) resp found) by done.
    rewrite Hfound. eexists. split; [reflexivity|]. simpl. repeat split; lia.
  - destruct fuel as [|fuel]; [lia|]. simpl.
    pose proof (Hlt 0%nat ltac:(lia)) as Hlt0. rewrite Nat.add_0_r in Hlt0.
    destruct (Hempty 0%nat ltac:(lia)) as (resp0 & v0 & Hresp0 & Hs0 & Hj0 & Hv0).
    rewrite Nat.add_0_r in Hresp0.
    rewrite Hlt0, (qb_find_answer s base_url tag (record_clock_read w) resp0 v0) by done.
    rewrite Hv0.
    destruct (IH fuel s base_url tag deadline v0
                (record_sleep (record_call (find_request s base_url tag) (record_clock_read w)))
                resp found) as (w' & Hrun & Hcalls & Hsleeps & Hreads); try done.
    + intros i Hi. simpl. rewrite <- Nat.add_succ_r. apply Hlt. lia.
    + intros i Hi. simpl. rewrite length_app. simpl.
      replace (length (calls w) + 1 + i)%nat with (length (calls w) + S i)%nat by lia.
      apply Hempty. lia.
    + simpl. rewrite length_app. simpl.
      by replace (length (calls w) + 1 + k)%nat with (length (calls w) + S k)%nat by lia.
    + lia.
    + exists w'. rewrite Hrun. simpl in *. rewrite Hcalls, Hsleeps, Hreads, <- app_assoc.
      repeat split; lia.
Qed.

End SubmitAndPoll.

(** ** Applying the decision *)

Section ApplyFacts.
Context `{PyLib}.
Variable e : env.

(** X11.  Setting the category, setting the upload limit, removing the
    tag and resuming are best effort: whatever the remote client answers,
    each returns normally after its one request, and a status other than 200
    only prints a warning (nothing at all for the tag). *)
Theorem best_effort_calls_never_abort (s : session) (base_url : string)
    (torrent_hash category : value) (limit : Z) (tag : string) (w : world)
    (resp : response) :
  (forall rq, remote e (length (calls w)) rq = Ok resp) ->
  truthy category = true ->
  qb_set_category e s base_url torrent_hash category w =
    (Ok tt,
     warned "Warning: setCategory failed (" "): "
       resp (record_call (set_category_request s base_url torrent_hash category) w)) /\
  qb_set_upload_limit e s base_url torrent_hash (Some limit) w =
    (Ok tt,
     warned "Warning: setUploadLimit failed (" "): "
       resp (record_call (upload_limit_request s base_url torrent_hash (limit_bytes limit)) w)) /\
  qb_remove_tag e s base_url torrent_hash tag w =
    (Ok tt, record_call (remove_tag_request s base_url torrent_hash tag) w) /\
  qb_resume e s base_url torrent_hash w =
    (Ok tt,
     warned "Warning: resume failed (" "): "
       resp (record_call (resume_request s base_url torrent_hash) w)).
Proof.
  intros Hresp Hc. unfold warned. repeat split.
  - unfold qb_set_category. rewrite Hc. run_prog. simpl. rewrite Hresp.
    destruct (Z.eqb (status_code resp) 200); reflexivity.
  - unfold qb_set_upload_limit. run_prog. rewrite Hresp.
    destruct (Z.eqb (status_code resp) 200); reflexivity.
  - unfold qb_remove_tag. run_prog. by rewrite Hresp.
  - unfold qb_resume. run_prog. rewrite Hresp.
    destruct (Z.eqb (status_code resp) 200); reflexivity.
Qed.

(** X12.  [qb_create_category_if_missing] for a non-empty category first
    asks for the categories.  A status other than 200 raises a
    [RuntimeError]; a category that is listed is not created again; one that
    is not listed is created with one more request, whose failure is only a
    warning. *)
Theorem category_is_created_only_if_missing (s : session) (base_url : string)
    (category : value) (w : world) (resp : response) :
  truthy category = true ->
  remote e (length (calls w)) (categories_request s base_url) = Ok resp ->
  (status_code resp <> 200 ->
   qb_create_category_if_missing e s base_url category w =
     (Raise (RuntimeError ("Failed to fetch categories: "
                           +:+ str_of_int (status_code resp) +:+ " " +:+ text resp)),
      record_call (categories_request s base_url) w)) /\
  (forall cats,
     status_code resp = 200 -> json resp = Ok cats -> py_in category cats = Ok true ->
     qb_create_category_if_missing e s base_url category w =
       (Ok tt, record_call (categories_request s base_url) w)) /\
  (forall cats resp',
     status_code resp = 200 -> json resp = Ok cats -> py_in category cats = Ok false ->
     remote e (S (length (calls w))) (create_category_request s base_url category) = Ok resp' ->
     qb_create_category_if_missing e s base_url category w =
       (Ok tt,
        warned "Warning: createCategory returned " ": "
          resp'
          (record_call (create_category_request s base_url category)
             (record_call (categories_request s base_url) w)))).
Proof.
  intros Hc Hresp. unfold qb_create_category_if_missing, qb_get_categories, warned.
  rewrite Hc. run_prog. simpl. fold (categories_request s base_url). rewrite Hresp.
  repeat split.
  - intros Hs. apply Z.eqb_neq in Hs. by rewrite Hs.
  - intros cats Hs Hj Hin. rewrite Hs, Hj. simpl. by rewrite Hin.
  - intros cats resp' Hs Hj Hin Hresp'. rewrite Hs, Hj. simpl. rewrite Hin. simpl.
    rewrite length_app. simpl. rewrite Nat.add_1_r.
    fold (create_category_request s base_url category). rewrite Hresp'.
    destruct (Z.eqb (status_code resp') 200); reflexivity.
Qed.

End ApplyFacts.

Section CategoryFacts.
Context `{PyLib}.

Lemma rule_result_category (rule : gmap string value) (c : value) (l : option Z) :
  rule_result rule = Ok (Some c, l) -> truthy c = true.
Proof.
  unfold rule_result.
  destruct (dict_has rule "category" && truthy (dict_get rule "category")) eqn:Hc.
  - apply andb_prop in Hc as [_ Hc].
    destruct (if dict_has rule "up_limit_kib" then _ else _) as [l'|ex]; simpl; [|discriminate].
    by intros [= <- _].
  - destruct (if dict_has rule "up_limit_kib" then _ else _) as [l'|ex]; simpl; discriminate.
Qed.

Lemma apply_defaults_category (defaults : gmap string value) (c : value) (l : option Z) :
  apply_defaults defaults None None = Ok (Some c, l) -> truthy c = true.
Proof.
  unfold apply_defaults. simpl.
  destruct (truthy (dict_get defaults "category")) eqn:Hc.
  - destruct (if dict_has defaults "up_limit_kib" then _ else _) as [l'|ex]; simpl; [|discriminate].
    by intros [= <- _].
  - destruct (if dict_has defaults "up_limit_kib" then _ else _) as [l'|ex]; simpl; discriminate.
Qed.

Lemma scan_rules_category (host : string) (rules : list (gmap string value)) (c : value)
    (l : option Z) :
  scan_rules host rules = Ok (Some (Some c, l)) -> truthy c = true.
Proof.
  induction rules as [|r rules IH]; [discriminate|]. simpl.
  destruct (rule_is_hit host r) as [[]|ex]; simpl; [| |discriminate].
  - destruct (rule_result r) as [[c' l']|ex] eqn:Hres; simpl; [|discriminate].
    intros [= -> ->]. by apply rule_result_category in Hres.
  - exact IH.
Qed.

Lemma scan_hosts_category (hosts : list string) (rules : list (gmap string value))
    (c : value) (l : option Z) :
  scan_hosts hosts rules = Ok (Some (Some c, l)) -> truthy c = true.
Proof.
  induction hosts as [|h hosts IH]; [discriminate|]. simpl.
  destruct (scan_rules h rules) as [[[c' l']|]|ex] eqn:Hscan; simpl; [| |discriminate].
  - intros [= -> ->]. by apply scan_rules_category in Hscan.
  - exact IH.
Qed.

Lemma match_rules_category_truthy (hosts : list string) (cfg : rules_cfg) (c : value)
    (l : option Z) :
  match_rules hosts cfg = Ok (Some c, l) -> truthy c = true.
Proof.
  unfold match_rules.
  destruct (scan_hosts hosts _) as [[[c' l']|]|ex] eqn:Hscan; simpl; [| |discriminate].
  - intros [= -> ->]. by apply scan_hosts_category in Hscan.
  - apply apply_defaults_category.
Qed.

(** X13.  A category that the Rule Matcher returns is truthy: the test
    [if category:] in [main] is the test [category is not None], so a
    decided category is never dropped. *)
Theorem decided_category_is_never_empty (hosts : list string) (cfg : rules_cfg)
    (category : option value) (limit : option Z) :
  match_rules hosts cfg = Ok (category, limit) ->
  category_truthy category = negb (is_none category).
Proof.
  intros Hres. destruct category as [c|]; [|reflexivity]. simpl.
  by apply match_rules_category_truthy in Hres.
Qed.

End CategoryFacts.

Section FinishFacts.
Context `{PyLib}.
Variable e : env.

Lemma qb_get_trackers_answer (s : session) (base_url : string) (torrent_hash : value)
    (w : world) (resp : response) :
  remote e (length (calls w)) (trackers_request s base_url torrent_hash) = Ok resp ->
  qb_get_trackers e s base_url torrent_hash w =
    (if Z.eqb (status_code resp) 200 then json resp
     else Raise (RuntimeError ("Failed to fetch trackers: "
                               +:+ str_of_int (status_code resp) +:+ " " +:+ text resp)),
     record_call (trackers_request s base_url torrent_hash) w).
Proof.
  intros Hresp. unfold qb_get_trackers. run_prog.
  fold (trackers_request s base_url torrent_hash). rewrite Hresp.
  destruct (Z.eqb (status_code resp) 200); simpl; [|reflexivity].
  by destruct (json resp).
Qed.

(** X14.  When the trackers cannot be fetched (status other than 200), or
    the Rule Matcher raises, [main] stops right after the trackers request:
    no category or limit is set, the marker tag is not removed and the
    torrent is not resumed. *)
Theorem failed_inspection_leaves_the_torrent_untouched (a : args) (s : session)
    (cfg : rules_cfg) (tag : string) (torrents torrent torrent_hash : value) (w : world)
    (resp : response) :
  truthy torrents = true ->
  py_index0 torrents = Ok torrent -> py_get torrent "hash" = Ok torrent_hash ->
  remote e (length (calls w)) (trackers_request s (arg_host a) torrent_hash) = Ok resp ->
  (status_code resp <> 200 ->
   main_finish e a s cfg tag torrents w =
     (Raise (RuntimeError ("Failed to fetch trackers: "
                           +:+ str_of_int (status_code resp) +:+ " " +:+ text resp)),
      record_call (trackers_request s (arg_host a) torrent_hash) w)) /\
  (forall payload trackers hosts ex,
     status_code resp = 200 -> json resp = Ok payload ->
     iter_dicts payload = Ok trackers ->
     extract_hostnames_from_trackers trackers = Ok hosts ->
     match_rules hosts cfg = Raise ex ->
     main_finish e a s cfg tag torrents w =
       (Raise ex, record_call (trackers_request s (arg_host a) torrent_hash) w)).
Proof.
  intros Ht Hi Hg Hresp. split.
  - intros Hs. unfold main_finish, mbind, prog_bind. rewrite Ht. simpl.
    unfold mret, prog_ret, lift. rewrite Hi, Hg, (qb_get_trackers_answer _ _ _ _ resp) by done.
    apply Z.eqb_neq in Hs. by rewrite Hs.
  - intros payload trackers hosts ex Hs Hj Hit Hex Hm.
    unfold main_finish, mbind, prog_bind. rewrite Ht. simpl.
    unfold mret, prog_ret, lift. rewrite Hi, Hg, (qb_get_trackers_answer _ _ _ _ resp) by done.
    rewrite Hs, Hj. simpl. rewrite Hit. simpl. rewrite Hex, Hm. reflexivity.
Qed.

End FinishFacts.

Section ApplySequence.
Context `{PyLib}.
Variable e : env.
Hypothesis Hanswers : remote_answers e.

Lemma qb_set_category_runs (s : session) (base_url : string) (torrent_hash c : value)
    (w : world) :
  truthy c = true ->
  exists w', qb_set_category e s base_url torrent_hash c w = (Ok tt, w') /\
    calls w' = calls w ++ [set_category_request s base_url torrent_hash c] /\
    stdout w' = stdout w.
Proof.
  intros Hc. unfold qb_set_category. rewrite Hc. run_prog. simpl.
  destruct (Hanswers (length (calls w)) (set_category_request s base_url torrent_hash c))
    as [resp Hresp].
  unfold set_category_request in Hresp. rewrite Hresp.
  destruct (negb _); eexists; repeat split.
Qed.

Lemma qb_set_upload_limit_runs (s : session) (base_url : string) (torrent_hash : value)
    (limit : option Z) (w : world) :
  exists w', qb_set_upload_limit e s base_url torrent_hash limit w = (Ok tt, w') /\
    calls w' = calls w ++
      match limit with
      | Some l => [upload_limit_request s base_url torrent_hash (Z.max 0 (l * 1024))]
      | None => []
      end /\
    stdout w' = stdout w.
Proof.
  unfold qb_set_upload_limit. destruct limit as [l|].
  - run_prog.
    destruct (Hanswers (length (calls w))
                (upload_limit_request s base_url torrent_hash (limit_bytes l)))
      as [resp Hresp].
    unfold upload_limit_request in Hresp. rewrite Hresp.
    destruct (negb _); eexists; repeat split.
  - exists w. by rewrite app_nil_r.
Qed.

Lemma qb_remove_tag_runs (s : session) (base_url : string) (torrent_hash : value)
    (tag : string) (w : world) :
  exists w', qb_remove_tag e s base_url torrent_hash tag w = (Ok tt, w') /\
    calls w' = calls w ++ [remove_tag_request s base_url torrent_hash tag] /\
    stdout w' = stdout w.
Proof.
  unfold qb_remove_tag. run_prog.
  destruct (Hanswers (length (calls w)) (remove_tag_request s base_url torrent_hash tag))
    as [resp Hresp].
  unfold remove_tag_request in Hresp. rewrite Hresp. eexists; repeat split.
Qed.

Lemma qb_resume_runs (s : session) (base_url : string) (torrent_hash : value) (w : world) :
  exists w', qb_resume e s base_url torrent_hash w = (Ok tt, w') /\
    calls w' = calls w ++ [resume_request s base_url torrent_hash] /\
    stdout w' = stdout w.
Proof.
  unfold qb_resume. run_prog.
  destruct (Hanswers (length (calls w)) (resume_request s base_url torrent_hash))
    as [resp Hresp].
  unfold resume_request in Hresp. rewrite Hresp.
  destruct (negb _); eexists; repeat split.
Qed.

Lemma qb_create_category_runs (s : session) (base_url : string) (c : value) (w : world)
    (resp : response) (cats : value) (known : bool) :
  truthy c = true ->
  remote e (length (calls w)) (categories_request s base_url) = Ok resp ->
  status_code resp = 200 -> json resp = Ok cats -> py_in c cats = Ok known ->
  exists w', qb_create_category_if_missing e s base_url c w = (Ok tt, w') /\
    calls w' = calls w ++ categories_request s base_url ::
                 (if known then [] else [create_category_request s base_url c]) /\
    stdout w' = stdout w.
Proof.
  intros Hc Hresp Hs Hj Hin.
  unfold qb_create_category_if_missing, qb_get_categories. rewrite Hc. run_prog. simpl.
  fold (categories_request s base_url). rewrite Hresp, Hs, Hj. simpl. rewrite Hin.
  destruct known; simpl; [eexists; repeat split|].
  match goal with |- context [remote e ?i ?rq] => destruct (Hanswers i rq) as [resp' Hresp'] end.
  rewrite Hresp'. destruct (negb _); eexists; repeat split; simpl; by rewrite <- app_assoc.
Qed.

(** X15.  When the remote client answers every request, the trackers
    answer has status 200 and a payload from which the Rule Matcher decides
    [(category, limit)], and, if a category was decided, the categories
    answer has status 200 and a payload [cats] on which [category in cats]
    evaluates to [known], [main] after the poll loop returns normally, sends
    the trackers request followed by exactly [apply_requests] (categories,
    createCategory unless [known], setCategory, setUploadLimit if a limit
    was decided, removeTags, resume unless [--no-unpause]), in that order,
    and prints one line. *)
Theorem successful_run_applies_cleans_up_and_resumes (a : args) (s : session)
    (cfg : rules_cfg) (tag : string) (torrents torrent torrent_hash payload : value)
    (trackers : list (gmap string value)) (hosts : list string)
    (category : option value) (limit : option Z) (known : bool)
    (w : world) (resp : response) :
  truthy torrents = true ->
  py_index0 torrents = Ok torrent -> py_get torrent "hash" = Ok torrent_hash ->
  remote e (length (calls w)) (trackers_request s (arg_host a) torrent_hash) = Ok resp ->
  status_code resp = 200 -> json resp = Ok payload ->
  iter_dicts payload = Ok trackers ->
  extract_hostnames_from_trackers trackers = Ok hosts ->
  match_rules hosts cfg = Ok (category, limit) ->
  (forall c, category = Some c ->
     exists resp' cats,
       remote e (S (length (calls w))) (categories_request s (arg_host a)) = Ok resp' /\
       status_code resp' = 200 /\ json resp' = Ok cats /\ py_in c cats = Ok known) ->
  exists w' line,
    main_finish e a s cfg tag torrents w = (Ok tt, w') /\
    calls w' = calls w ++ trackers_request s (arg_host a) torrent_hash ::
                 apply_requests s (arg_host a) torrent_hash tag category known limit
                   (arg_no_unpause a) /\
    stdout w' = stdout w ++ [line].
Proof.
  intros Ht Hi Hg Hresp Hs Hj Hit Hex Hm Hcats.
  unfold main_finish, mbind, prog_bind. rewrite Ht. simpl.
  unfold mret, prog_ret, lift. rewrite Hi, Hg, (qb_get_trackers_answer e _ _ _ _ resp) by done.
  rewrite Hs, Hj. simpl. rewrite Hit. simpl. rewrite Hex, Hm.
  set (w1 := record_call (trackers_request s (arg_host a) torrent_hash) w).
  assert (Hcalls1 : calls w1 = calls w ++ [trackers_request s (arg_host a) torrent_hash])
    by reflexivity.
  assert (Hout1 : stdout w1 = stdout w) by reflexivity.
  assert (Hlen1 : length (calls w1) = S (length (calls w)))
    by (rewrite Hcalls1, length_app; simpl; lia).
  clearbody w1.
  unfold apply_requests.
  destruct category as [c|]; simpl.
  - pose proof (match_rules_category_truthy _ _ _ _ Hm) as Hc. rewrite Hc.
    destruct (Hcats c eq_refl) as (resp' & cats & Hresp' & Hs' & Hj' & Hin).
    rewrite <- Hlen1 in Hresp'.
    destruct (qb_create_category_runs s (arg_host a) c w1 resp' cats known Hc Hresp' Hs' Hj' Hin)
      as (wc & -> & Hcallsc & Houtc).
    destruct (qb_set_category_runs s (arg_host a) torrent_hash c wc Hc)
      as (ws & -> & Hcallss & Houts).
    destruct (qb_set_upload_limit_runs s (arg_host a) torrent_hash limit ws)
      as (w3 & -> & Hcalls3 & Hout3).
    destruct (qb_remove_tag_runs s (arg_host a) torrent_hash tag w3)
      as (w4 & -> & Hcalls4 & Hout4).
    destruct (arg_no_unpause a); simpl.
    + unfold print_out. eexists _, _. split; [reflexivity|]. simpl. split.
      * rewrite Hcalls4, Hcalls3, Hcallss, Hcallsc, Hcalls1.
        rewrite <- ?app_assoc. simpl. by rewrite <- ?app_assoc.
      * by rewrite Hout4, Hout3, Houts, Houtc, Hout1.
    + destruct (qb_resume_runs s (arg_host a) torrent_hash w4) as (w5 & -> & Hcalls5 & Hout5).
      unfold print_out. eexists _, _. split; [reflexivity|]. simpl. split.
      * rewrite Hcalls5, Hcalls4, Hcalls3, Hcallss, Hcallsc, Hcalls1.
        rewrite <- ?app_assoc. simpl. by rewrite <- ?app_assoc.
      * by rewrite Hout5, Hout4, Hout3, Houts, Houtc, Hout1.
  - destruct (qb_set_upload_limit_runs s (arg_host a) torrent_hash limit w1)
      as (w3 & -> & Hcalls3 & Hout3).
    destruct (qb_remove_tag_runs s (arg_host a) torrent_hash tag w3)
      as (w4 & -> & Hcalls4 & Hout4).
    destruct (arg_no_unpause a); simpl.
    + unfold print_out. eexists _, _. split; [reflexivity|]. simpl. split.
      * rewrite Hcalls4, Hcalls3, Hcalls1. by rewrite <- ?app_assoc.
      * by rewrite Hout4, Hout3, Hout1.
    + destruct (qb_resume_runs s (arg_host a) torrent_hash w4) as (w5 & -> & Hcalls5 & Hout5).
      unfold print_out. eexists _, _. split; [reflexivity|]. simpl. split.
      * rewrite Hcalls5, Hcalls4, Hcalls3, Hcalls1. by rewrite <- ?app_assoc.
      * by rewrite Hout5, Hout4, Hout3, Hout1.
Qed.

End ApplySequence.

(** ** Standard output *)

Ltac stdout_auto :=
  unfold qb_login, load_rules, qb_add_source, qb_find_torrents_by_tag, qb_get_trackers,
    qb_get_categories, qb_create_category_if_missing, qb_set_category,
    qb_set_upload_limit, qb_remove_tag, qb_resume, session_post, session_get, sys_exit;
  repeat keeps_step.

Ltac stdout_step Hrun Hout :=
  let Hm := fresh "Hm" in let Hk := fresh "Hk" in
  apply bind_inv in Hrun;
  destruct Hrun as [(? & Hm & ->) | (? & ? & Hm & Hrun)];
  match type of Hm with
  | ?m _ = _ =>
      assert (Hk : keeps same_stdout m) by stdout_auto;
      apply Hk in Hm; unfold same_stdout in Hm; rewrite Hout in Hm; clear Hk
  end;
  [exact Hm | clear Hout; rename Hm into Hout].

Section Summary.
Context `{PyLib}.
Variable e : env.

Lemma main_setup_stdout (a : args) : keeps same_stdout (main_setup e a).
Proof. unfold main_setup. stdout_auto. Qed.

Lemma await_registration_stdout (s : session) (base_url tag : string) (fuel : nat) :
  forall (deadline : timestamp) (torrents : value) (w w' : world) (r : result value),
  await_registration e fuel s base_url tag deadline torrents w = Some (r, w') ->
  stdout w' = stdout w.
Proof.
  induction fuel as [|fuel IH]; intros deadline torrents w w' r; [discriminate|].
  simpl. destruct (time_lt _ deadline); [|by intros [= <- <-]].
  destruct (qb_find_torrents_by_tag e s base_url tag (record_clock_read w))
    as [[v|ex] w2] eqn:Hfind;
    (assert (Hk : keeps same_stdout (qb_find_torrents_by_tag e s base_url tag))
       by stdout_auto; apply Hk in Hfind; unfold same_stdout in Hfind; simpl in Hfind).
  - destruct (truthy v); [by intros [= <- <-]|].
    intros Hrest. apply IH in Hrest. simpl in Hrest. congruence.
  - by intros [= <- <-].
Qed.

Lemma main_finish_stdout (a : args) (s : session) (cfg : rules_cfg) (tag : string)
    (torrents : value) (w w' : world) (r : result unit) :
  main_finish e a s cfg tag torrents w = (r, w') ->
  match r with
  | Ok _ => exists line, stdout w' = stdout w ++ [line] /\
                         String.prefix "Applied: " line = true
  | Raise _ => stdout w' = stdout w
  end.
Proof.
  unfold main_finish. intros Hrun.
  assert (Hout : stdout w = stdout w) by reflexivity. revert Hout Hrun.
  generalize w at 1 3. intros w0 Hout Hrun.
  do 6 stdout_step Hrun Hout.
  match type of Hrun with context [let '(_, _) := ?p in _] => destruct p as [category up_limit_kib] end.
  do 4 stdout_step Hrun Hout.
  unfold print_out in Hrun. injection Hrun as <- <-. simpl.
  eexists. split; [by rewrite Hout|]. apply string_prefix_app.
Qed.

(** X16.  Standard output holds the summary line [Applied: ...] when the
    run returns normally, and nothing when it ends in an exception or an
    exit. *)
Theorem summary_is_printed_only_on_success (fuel : nat) (a : args) (r : result unit)
    (w' : world) :
  main e fuel a world0 = Some (r, w') ->
  match r with
  | Ok _ => exists line, stdout w' = [line] /\ String.prefix "Applied: " line = true
  | Raise _ => stdout w' = []
  end.
Proof.
  unfold main.
  destruct (main_setup e a world0) as [[[[[s cfg] tag] deadline]|ex] w1] eqn:Hsetup;
    apply main_setup_stdout in Hsetup; unfold same_stdout in Hsetup; simpl in Hsetup.
  - destruct (await_registration e fuel s (arg_host a) tag deadline (VList []) w1)
      as [[[torrents|ex] w2]|] eqn:Hpoll; [| |discriminate];
      apply await_registration_stdout in Hpoll.
    + destruct (main_finish e a s cfg tag torrents w2) as [r' w3] eqn:Hfinish.
      intros [= <- <-]. apply main_finish_stdout in Hfinish.
      destruct r' as [u|ex]; [|congruence].
      destruct Hfinish as (line & Hline & Hprefix). exists line.
      split; [|done]. by rewrite Hline, Hpoll, Hsetup.
    + intros [= <- <-]. congruence.
  - by intros [= <- <-].
Qed.

End Summary.

(** ** The decision and the command line *)

Lemma unique_loop_acc (l : list string) (seen : gset string) (acc : list string) :
  unique_loop l seen acc = acc ++ unique_loop l seen [].
Proof.
  revert seen acc. induction l as [|h l IH]; intros seen acc; simpl.
  - by rewrite app_nil_r.
  - case_bool_decide; [|apply IH].
    rewrite (IH _ (acc ++ [h])), (IH _ [h]). by rewrite <- app_assoc.
Qed.

Section DecisionFacts.
Context `{PyLib}.

Lemma scan_hosts_unique (rules : list (gmap string value)) (l : list string) :
  forall seen : gset string,
  (forall h, h ∈ seen -> scan_rules h rules = Ok None) ->
  scan_hosts (unique_loop l seen []) rules = scan_hosts l rules.
Proof.
  induction l as [|h l IH]; intros seen Hseen; simpl; [done|].
  case_bool_decide as Hh.
  - rewrite unique_loop_acc. simpl.
    destruct (scan_rules h rules) as [[res|]|ex] eqn:Hscan; simpl; try done.
    apply IH. intros h' [->%elem_of_singleton | Hin]%elem_of_union; [done|by apply Hseen].
  - rewrite (Hseen h) by (by destruct (decide (h ∈ seen))). simpl. by apply IH.
Qed.

(** X17.  Removing the repeated hostnames does not change the decision:
    the Rule Matcher returns the same on the extractor's output as on the
    hostnames of the trackers with their repetitions. *)
Theorem deduplication_keeps_the_decision (trackers : list (gmap string value))
    (hosts : list string) (cfg : rules_cfg) :
  extract_hostnames_from_trackers trackers = Ok hosts ->
  match_rules hosts cfg = match_rules (omap tracker_hostname trackers) cfg.
Proof.
  unfold extract_hostnames_from_trackers. rewrite collect_hosts_eq. simpl.
  intros [= <-]. rewrite !match_rules_scan.
  rewrite scan_hosts_unique; [done|]. intros h Hh. by apply elem_of_empty in Hh.
Qed.

(** X18.  Further trackers only append: the extractor's output on a longer
    list starts with its output on the shorter one, followed by the
    hostnames of the further trackers that the shorter list does not
    have. *)
Theorem more_trackers_only_append_new_hostnames (ts1 ts2 : list (gmap string value)) :
  exists out1 more,
    extract_hostnames_from_trackers ts1 = Ok out1 /\
    extract_hostnames_from_trackers (ts1 ++ ts2) = Ok (out1 ++ more) /\
    (forall h, h ∈ more <->
       h ∈ omap tracker_hostname ts2 /\ h ∉ omap tracker_hostname ts1).
Proof.
  unfold extract_hostnames_from_trackers. rewrite !collect_hosts_eq. simpl.
  rewrite omap_app, unique_loop_app.
  set (l1 := omap tracker_hostname ts1). set (l2 := omap tracker_hostname ts2).
  destruct (unique_loop_spec l2 (∅ ∪ list_to_set l1) (unique_loop l1 ∅ []))
    as (more & Heq & _ & Hin).
  exists (unique_loop l1 ∅ []), more. rewrite Heq. split; [done|]. split; [done|].
  intros h. rewrite Hin, not_elem_of_union, elem_of_list_to_set.
  split.
  - intros (Hh2 & _ & Hh1). by split.
  - intros (Hh2 & Hh1). split; [done|]. split; [apply not_elem_of_empty|done].
Qed.

End DecisionFacts.

Section CommandLine.
Context `{PyLib}.
Variable e : env.

(** X19.  With no [--username] and [QBT_USERNAME] unset or empty (or the
    same for the password), the run ends with [sys.exit(2)] before any
    request is sent. *)
Theorem unset_credentials_end_the_run_before_any_request (fuel : nat)
    (environ : gmap string string) (script_dir : string) (cl : command_line) :
  (cl_username cl = None /\ str_missing (environ !! "QBT_USERNAME") = true) \/
  (cl_password cl = None /\ str_missing (environ !! "QBT_PASSWORD") = true) ->
  exists w',
    main e fuel (parse_args environ script_dir cl) world0
      = Some (Raise (SystemExit 2), w') /\
    calls w' = [].
Proof.
  intros Hmissing. eexists. split.
  - apply main_login_raises, qb_login_missing. simpl.
    destruct Hmissing as [[-> Hm] | [-> Hm]]; rewrite Hm; [done|by rewrite orb_true_r].
  - reflexivity.
Qed.

(** X20.  [--host] overrides [QBT_HOST], which overrides
    [http://localhost:8080]: every request of the run goes to the host
    chosen in that order. *)
Theorem host_option_overrides_environment (fuel : nat) (environ : gmap string string)
    (script_dir : string) (cl : command_line) (r : result unit) (w' : world) :
  main e fuel (parse_args environ script_dir cl) world0 = Some (r, w') ->
  let host :=
    match cl_host cl, environ !! "QBT_HOST" with
    | Some h, _ => h
    | None, Some h => h
    | None, None => "http://localhost:8080"
    end in
  Forall (fun rq => String.prefix host (req_url rq) = true) (calls w').
Proof.
  intros Hrun host.
  assert (Hhost : arg_host (parse_args environ script_dir cl) = host).
  { unfold host. simpl. by destruct (cl_host cl), (environ !! "QBT_HOST"). }
  apply main_calls_shape in Hrun as [-> | (rest & -> & Hrest)]; [constructor|].
  rewrite Hhost in Hrest. simpl. constructor.
  - rewrite <- Hhost. apply string_prefix_app.
  - eapply Forall_impl; [exact Hrest|]. intros rq Hrq.
    by apply api_request_addressed in Hrq as [_ Hp].
Qed.

End CommandLine.

(** ** The theorems at sample inputs *)

(** The examples of the specification. *)
Example match_exact_rule :
  @match_rules sample_lib ["tracker.example.com"]
    {| cfg_defaults := None; cfg_rules := Some [rule_movies] |}
  = Ok (Some (VStr "movies"), Some 500).
Proof. vm_compute. reflexivity. Qed.

Example match_regex_rule :
  @match_rules sample_lib ["a.example.org"]
    {| cfg_defaults := None; cfg_rules := Some [rule_tv] |}
  = Ok (Some (VStr "tv"), None).
Proof. vm_compute. reflexivity. Qed.


(** A rule that only names a category hits no host. *)
Lemma rule_without_matcher_never_hits_witness :
  @rule_is_hit sample_lib "tracker.example.com" {[ "category" := VStr "movies" ]}
  = Ok false.
Proof.
  apply (rule_without_matcher_never_hits (H:=sample_lib)); vm_compute; reflexivity.
Defined.

Example match_nothing :
  @match_rules sample_lib ["other.example.net"]
    {| cfg_defaults := None; cfg_rules := None |}
  = Ok (None, None).
Proof. vm_compute. reflexivity. Qed.

Example extract_sample_trackers :
  @extract_hostnames_from_trackers sample_lib sample_trackers
  = Ok ["a.example.org"; "b.example.org"].
Proof. vm_compute. reflexivity. Qed.


(** X22 at a sample input: the rule with the pattern ["("] is skipped and
    the rule after it decides. *)
Lemma invalid_regex_rule_is_skipped_witness :
  @match_rules sample_lib ["a.example.org"]
    {| cfg_defaults := None; cfg_rules := Some [rule_broken; rule_tv] |}
  = @match_rules sample_lib ["a.example.org"]
    {| cfg_defaults := None; cfg_rules := Some [rule_tv] |}.
Proof.
  refine (proj1 (proj2 (proj2
    (invalid_regex_rule_is_skipped (H:=sample_lib) ["a.example.org"] [] [rule_tv]
       rule_broken "(" None _ _ _)))).
  - vm_compute; reflexivity.
  - vm_compute; reflexivity.
  - constructor; [vm_compute; reflexivity | constructor].
Defined.

(** C1 at the failing input: the only rule hits the only host, and its
    limit is [.inf]. *)
Lemma match_rules_first_hit_infinite_limit_raises_witness :
  @match_rules sample_lib ["tracker.example.com"]
    {| cfg_defaults := None; cfg_rules := Some [rule_infinite] |}
  = Raise OverflowError.
Proof.
  apply (match_rules_first_hit_infinite_limit_raises (H:=sample_lib) []
           [] "tracker.example.com" [] [] rule_infinite None false).
  - constructor.
  - constructor.
  - vm_compute; reflexivity.
  - vm_compute; reflexivity.
Defined.

(** C3 at the failing input: the repetition number of the first rule is
    too large, and the rule after it, which hits the host, is not tried. *)
Lemma invalid_pattern_raises_unless_re_error_witness :
  @rule_is_hit sample_lib_repeat "a.example.org" rule_tv = Ok true /\
  @match_rules sample_lib_repeat ["a.example.org"]
    {| cfg_defaults := None; cfg_rules := Some [rule_overflowing; rule_tv] |}
  = Raise OverflowError.
Proof.
  split; [vm_compute; reflexivity|].
  apply (invalid_pattern_raises_unless_re_error (H:=sample_lib_repeat) "a.example.org"
           [] [] [rule_tv] rule_overflowing None OverflowError).
  - constructor.
  - vm_compute; reflexivity.
  - vm_compute; reflexivity.
  - vm_compute; reflexivity.
  - reflexivity.
Defined.

(** C4 as stated fails: a rule with the limit -5 gives the limit -5. *)
Lemma match_rules_negative_limit :
  @match_rules sample_lib ["tracker.example.com"]
    {| cfg_defaults := None; cfg_rules := Some [rule_negative] |}
  = Ok (None, Some (-5)) /\ ~ 0 <= -5.
Proof. split; [vm_compute; reflexivity | lia]. Qed.

(** C4, amended, at a sample input. *)
Lemma match_rules_limit_is_coerced_field_witness :
  (exists d v,
     (d ∈ [rule_movies; rule_tv] \/ Some defaults_misc = Some d) /\
     d !! "up_limit_kib" = Some v /\ @py_int sample_lib v = Ok 500) /\
  ((forall d v m,
      d ∈ [rule_movies; rule_tv] \/ Some defaults_misc = Some d ->
      d !! "up_limit_kib" = Some v -> @py_int sample_lib v = Ok m -> 0 <= m) ->
   0 <= 500).
Proof.
  apply (match_rules_limit_is_coerced_field (H:=sample_lib)
           ["tracker.example.com"] sample_cfg (Some (VStr "movies")) 500).
  vm_compute; reflexivity.
Defined.

(** C6 at a sample input: a tracker whose URL does not parse is skipped. *)
Lemma extract_hostnames_never_raises_witness :
  @extract_hostnames_from_trackers sample_lib
    ([ {[ "url" := VStr "http://a.example.org/announce" ]} ] ++
     {[ "url" := VStr "http://[x/" ]} ::
     [ {[ "url" := VStr "udp://b.example.org:80" ]} ])
  = @extract_hostnames_from_trackers sample_lib
    ([ {[ "url" := VStr "http://a.example.org/announce" ]} ] ++
     [ {[ "url" := VStr "udp://b.example.org:80" ]} ]).
Proof.
  apply (proj2 (proj2 (extract_hostnames_never_raises (H:=sample_lib) []))).
  right; left. exists ValueError. vm_compute; reflexivity.
Defined.

(** C8 at a sample input: two polls before the deadline, then the exit. *)
Lemma registration_timeout_stops_run_witness :
  exists w',
    main env_never_registers 10 sample_args world0 = Some (Raise (SystemExit 1), w') /\
    exit_status (Raise (SystemExit 1)) = 1 /\
    stderr w' = ["Error: Added torrent not found by tag within timeout."] /\
    (exists add_rq,
       req_url add_rq = "http://localhost:8080/api/v2/torrents/add" /\
       calls w' = [login_request sample_args; add_rq] ++
         replicate 2 (find_request {| verify := true |} "http://localhost:8080" sample_tag)).
Proof.
  apply (registration_timeout_stops_run (H:=sample_lib) env_never_registers
           sample_args 2 10 {| verify := true |} sample_cfg sample_tag (3 : Z)
           sample_after_setup).
  - vm_compute; reflexivity.
  - intros k Hk. destruct k as [|[|k]]; [| |lia].
    + split; [reflexivity|]. exists response_no_torrents, (VList []).
      repeat split; reflexivity.
    + split; [reflexivity|]. exists response_no_torrents, (VList []).
      repeat split; reflexivity.
  - reflexivity.
  - lia.
Defined.

(** C9 at sample inputs: no password, and a login answered with 403. *)
Lemma login_exit_codes_witness :
  (exists w',
     main env_never_registers 10 sample_args_no_password world0
       = Some (Raise (SystemExit 2), w') /\
     exit_status (Raise (SystemExit 2)) = 2 /\ calls w' = []) /\
  (exists w',
     main (env_answering response_forbidden) 10 sample_args world0
       = Some (Raise (SystemExit 1), w') /\
     exit_status (Raise (SystemExit 1)) = 1 /\ calls w' = [login_request sample_args]).
Proof.
  split.
  - apply (proj1 (login_exit_codes (H:=sample_lib) env_never_registers 10
                    sample_args_no_password)).
    right; reflexivity.
  - apply (proj2 (login_exit_codes (H:=sample_lib) (env_answering response_forbidden) 10
                    sample_args) response_forbidden); try reflexivity.
    left. simpl. lia.
Defined.

(** C10 at a sample input: status 200 with the body ["Fails."]. *)
Lemma login_needs_ok_body_witness :
  exists w',
    main (env_answering response_fails) 10 sample_args world0
      = Some (Raise (SystemExit 1), w') /\
    exit_status (Raise (SystemExit 1)) = 1 /\
    calls w' = [login_request sample_args] /\
    stderr w' = ["Error: Login failed (status 200): Fails."].
Proof.
  apply (login_needs_ok_body (H:=sample_lib) (env_answering response_fails) 10
           sample_args response_fails); try reflexivity.
  simpl. discriminate.
Defined.

(** A whole run at a sample input: the torrent is listed at the second
    poll, matched by the first rule, and the eleven requests are sent in the
    order of [main]. *)
Example sample_run_succeeds :
  exists w',
    main env_success 10 sample_args world0 = Some (Ok tt, w') /\
    length (calls w') = 11%nat /\
    stderr w' = [] /\
    stdout w' = ["Applied: category=movies, up_limit_kib=500. Hosts: tracker.example.com"].
Proof. eexists. split; [vm_compute; reflexivity|]. repeat split. Qed.

(** X3 at the sample run. *)
Lemma run_requests_go_to_the_configured_host_witness :
  exists r w',
    main env_success 10 sample_args world0 = Some (r, w') /\
    Forall (fun rq => req_verify rq = true /\
                      String.prefix "http://localhost:8080" (req_url rq) = true)
      (calls w').
Proof.
  eexists _, _. split; [vm_compute; reflexivity|].
  apply (run_requests_go_to_the_configured_host (H:=sample_lib) env_success 10 sample_args
           (Ok tt)).
  vm_compute; reflexivity.
Defined.

(** X4 at the sample run: the login is its first request. *)
Lemma run_sends_credentials_once_witness :
  exists r w',
    main env_success 10 sample_args world0 = Some (r, w') /\
    calls w' !! 0%nat = Some (login_request sample_args) /\
    carries_credentials (login_request sample_args) = true /\
    (0%nat = 0%nat /\ login_request sample_args = login_request sample_args).
Proof.
  eexists _, _. split; [vm_compute; reflexivity|]. split; [reflexivity|].
  split; [reflexivity|].
  eapply (run_sends_credentials_once (H:=sample_lib) env_success 10 sample_args (Ok tt) _
            0%nat (login_request sample_args)); vm_compute; reflexivity.
Defined.

(** X5 at the run in which the torrent is never listed. *)
Lemma run_submits_source_paused_and_tagged_witness :
  In ("paused", VStr "true") (req_data sample_add_request) /\
  In ("tags", VStr sample_tag) (req_data sample_add_request).
Proof.
  apply (run_submits_source_paused_and_tagged (H:=sample_lib) env_never_registers 10
           sample_args (Raise (SystemExit 1))
           {| calls := [login_request sample_args; sample_add_request] ++
                replicate 2 (find_request {| verify := true |} "http://localhost:8080"
                               sample_tag);
              clock_reads := 4; sleeps := 2;
              stderr := ["Error: Added torrent not found by tag within timeout."];
              stdout := [] |}).
  - vm_compute; reflexivity.
  - apply elem_of_cons. right. apply elem_of_cons. by left.
  - reflexivity.
Defined.

(** X6 at sample inputs: no rules file, and a rules file that does not parse. *)
Lemma rules_file_errors_stop_the_run_after_login_witness :
  main (env_with_files (fun _ => false) (Ok None)) 10 sample_args world0 =
    Some (Raise (SystemExit 2),
          record_err "Error: Rules file not found: rules.yaml"
            (record_call (login_request sample_args) world0)) /\
  main (env_with_files (fun _ => true)
          (Raise (YAMLError "mapping values are not allowed here"))) 10 sample_args world0 =
    Some (Raise (SystemExit 2),
          record_err "Error: Failed to parse YAML rules: mapping values are not allowed here"
            (record_call (login_request sample_args) world0)).
Proof.
  split.
  - apply (proj1 (rules_file_errors_stop_the_run_after_login (H:=sample_lib)
                    (env_with_files (fun _ => false) (Ok None)) 10 sample_args response_ok
                    eq_refl eq_refl eq_refl eq_refl eq_refl)).
    reflexivity.
  - apply (proj2 (rules_file_errors_stop_the_run_after_login (H:=sample_lib)
                    (env_with_files (fun _ => true)
                       (Raise (YAMLError "mapping values are not allowed here")))
                    10 sample_args response_ok eq_refl eq_refl eq_refl eq_refl eq_refl)
             "mapping values are not allowed here"); reflexivity.
Defined.

(** X7 at a sample input: an empty rules file. *)
Lemma load_rules_keeps_the_decision_witness :
  world0 = world0 /\
  is_Some (cfg_defaults {| cfg_defaults := Some ∅; cfg_rules := Some [] |}) /\
  is_Some (cfg_rules {| cfg_defaults := Some ∅; cfg_rules := Some [] |}) /\
  @match_rules sample_lib ["tracker.example.com"]
    {| cfg_defaults := Some ∅; cfg_rules := Some [] |} =
  @match_rules sample_lib ["tracker.example.com"]
    {| cfg_defaults := None; cfg_rules := None |}.
Proof.
  apply (load_rules_keeps_the_decision (H:=sample_lib)
           (env_with_files (fun _ => true) (Ok None)) "rules.yaml" None world0 world0
           {| cfg_defaults := Some ∅; cfg_rules := Some [] |} ["tracker.example.com"]);
    reflexivity.
Defined.

(** X8 at a sample input: only the rules file exists. *)
Lemma missing_source_file_submits_nothing_witness :
  main (env_with_files (fun path => String.eqb path "rules.yaml") (Ok (Some sample_cfg)))
    10 sample_args_file world0 =
    Some (Raise (SystemExit 2),
          record_err "Error: File not found: /downloads/ubuntu.torrent"
            (record_call (login_request sample_args_file) world0)).
Proof.
  apply (missing_source_file_submits_nothing (H:=sample_lib)
           (env_with_files (fun path => String.eqb path "rules.yaml")
              (Ok (Some sample_cfg)))
           10 sample_args_file response_ok (Some sample_cfg)); reflexivity.
Defined.

(** X9 at a sample input: the first poll is answered with 403. *)
Lemma failed_poll_is_not_retried_witness :
  await_registration (env_answering response_forbidden) 10 {| verify := true |}
    "http://localhost:8080" sample_tag (4 : Z) (VList []) sample_after_setup =
  Some (Raise (RuntimeError "Failed to query torrents by tag: 403 Forbidden"),
        record_call (find_request {| verify := true |} "http://localhost:8080" sample_tag)
          (record_clock_read sample_after_setup)).
Proof.
  apply (failed_poll_is_not_retried (H:=sample_lib) (env_answering response_forbidden) 9
           {| verify := true |} "http://localhost:8080" sample_tag (4 : Z) (VList [])
           sample_after_setup response_forbidden); [reflexivity | reflexivity | discriminate].
Defined.

(** X10 at a sample input: one empty poll, then the torrent is listed. *)
Lemma registration_found_after_empty_polls_witness :
  exists w',
    await_registration env_success 10 {| verify := true |} "http://localhost:8080"
      sample_tag (3 : Z) (VList []) sample_after_setup = Some (Ok sample_torrents, w') /\
    calls w' = calls sample_after_setup ++
      replicate 2 (find_request {| verify := true |} "http://localhost:8080" sample_tag) /\
    sleeps w' = 1%nat /\
    clock_reads w' = 3%nat.
Proof.
  apply (registration_found_after_empty_polls (H:=sample_lib) env_success 1 10
           {| verify := true |} "http://localhost:8080" sample_tag (3 : Z) (VList [])
           sample_after_setup response_torrents sample_torrents).
  - intros i Hi. destruct i as [|[|i]]; [reflexivity | reflexivity | lia].
  - intros i Hi. destruct i as [|i]; [|lia].
    exists response_no_torrents, (VList []). repeat split; reflexivity.
  - reflexivity.
  - reflexivity.
  - reflexivity.
  - reflexivity.
  - lia.
Defined.

(** X11 at a sample input: every request is answered with 403. *)
Lemma best_effort_calls_never_abort_witness :
  qb_set_category (env_answering response_forbidden) {| verify := true |}
    "http://localhost:8080" sample_hash (VStr "movies") world0 =
    (Ok tt,
     record_err "Warning: setCategory failed (403): Forbidden"
       (record_call (set_category_request {| verify := true |} "http://localhost:8080"
                       sample_hash (VStr "movies")) world0)) /\
  qb_set_upload_limit (env_answering response_forbidden) {| verify := true |}
    "http://localhost:8080" sample_hash (Some 500) world0 =
    (Ok tt,
     record_err "Warning: setUploadLimit failed (403): Forbidden"
       (record_call (upload_limit_request {| verify := true |} "http://localhost:8080"
                       sample_hash 512000) world0)) /\
  qb_remove_tag (env_answering response_forbidden) {| verify := true |}
    "http://localhost:8080" sample_hash sample_tag world0 =
    (Ok tt,
     record_call (remove_tag_request {| verify := true |} "http://localhost:8080"
                    sample_hash sample_tag) world0) /\
  qb_resume (env_answering response_forbidden) {| verify := true |}
    "http://localhost:8080" sample_hash world0 =
    (Ok tt,
     record_err "Warning: resume failed (403): Forbidden"
       (record_call (resume_request {| verify := true |} "http://localhost:8080"
                       sample_hash) world0)).
Proof.
  apply (best_effort_calls_never_abort (H:=sample_lib) (env_answering response_forbidden)
           {| verify := true |} "http://localhost:8080" sample_hash (VStr "movies") 500
           sample_tag world0 response_forbidden); [intros rq|]; reflexivity.
Defined.

(** X12 at a sample input: the remote client knows no category. *)
Lemma category_is_created_only_if_missing_witness :
  qb_create_category_if_missing (env_answering response_categories) {| verify := true |}
    "http://localhost:8080" (VStr "movies") world0 =
    (Ok tt,
     record_call (create_category_request {| verify := true |} "http://localhost:8080"
                    (VStr "movies"))
       (record_call (categories_request {| verify := true |} "http://localhost:8080")
          world0)).
Proof.
  apply (proj2 (proj2 (category_is_created_only_if_missing (H:=sample_lib)
                         (env_answering response_categories) {| verify := true |}
                         "http://localhost:8080" (VStr "movies") world0
                         response_categories eq_refl eq_refl))
           (VDict ∅) response_categories); reflexivity.
Defined.

(** X13 at a sample input. *)
Lemma decided_category_is_never_empty_witness :
  category_truthy (Some (VStr "movies")) = negb (is_none (Some (VStr "movies"))).
Proof.
  apply (decided_category_is_never_empty (H:=sample_lib) ["tracker.example.com"]
           sample_cfg (Some (VStr "movies")) (Some 500)).
  vm_compute; reflexivity.
Defined.

(** X14 at a sample input: the trackers request is answered with 403. *)
Lemma failed_inspection_leaves_the_torrent_untouched_witness :
  main_finish (env_answering response_forbidden) sample_args {| verify := true |}
    sample_cfg sample_tag sample_torrents sample_after_poll =
    (Raise (RuntimeError "Failed to fetch trackers: 403 Forbidden"),
     record_call (trackers_request {| verify := true |} "http://localhost:8080" sample_hash)
       sample_after_poll).
Proof.
  apply (proj1 (failed_inspection_leaves_the_torrent_untouched (H:=sample_lib)
                  (env_answering response_forbidden) sample_args {| verify := true |}
                  sample_cfg sample_tag sample_torrents
                  (VDict {[ "hash" := sample_hash ]}) sample_hash sample_after_poll
                  response_forbidden eq_refl eq_refl eq_refl eq_refl)).
  discriminate.
Defined.

(** X15 at the sample run, from the end of the poll loop. *)
Lemma successful_run_applies_cleans_up_and_resumes_witness :
  exists w' line,
    main_finish env_success sample_args {| verify := true |} sample_cfg sample_tag
      sample_torrents sample_after_poll = (Ok tt, w') /\
    calls w' = calls sample_after_poll ++
      trackers_request {| verify := true |} "http://localhost:8080" sample_hash ::
      apply_requests {| verify := true |} "http://localhost:8080" sample_hash sample_tag
        (Some (VStr "movies")) false (Some 500) false /\
    stdout w' = stdout sample_after_poll ++ [line].
Proof.
  apply (successful_run_applies_cleans_up_and_resumes (H:=sample_lib) env_success
           (fun i rq => ex_intro _ _ eq_refl)
           sample_args {| verify := true |} sample_cfg sample_tag sample_torrents
           (VDict {[ "hash" := sample_hash ]}) sample_hash sample_payload
           [ {[ "url" := VStr "http://tracker.example.com/announce" ]};
             {[ "url" := VStr "** [DHT] **" ]} ]
           ["tracker.example.com"] (Some (VStr "movies")) (Some 500) false
           sample_after_poll response_trackers);
    try (vm_compute; reflexivity).
  intros c [= <-]. exists response_categories, (VDict ∅). repeat split; reflexivity.
Defined.

(** X16 at the sample run. *)
Lemma summary_is_printed_only_on_success_witness :
  exists w',
    main env_success 10 sample_args world0 = Some (Ok tt, w') /\
    exists line, stdout w' = [line] /\ String.prefix "Applied: " line = true.
Proof.
  eexists. split; [vm_compute; reflexivity|].
  eapply (summary_is_printed_only_on_success (H:=sample_lib) env_success 10 sample_args
            (Ok tt)).
  vm_compute; reflexivity.
Defined.

(** X17 at the sample trackers, of which two resolve to one host. *)
Lemma deduplication_keeps_the_decision_witness :
  @match_rules sample_lib ["a.example.org"; "b.example.org"] sample_cfg =
  @match_rules sample_lib (omap (@tracker_hostname sample_lib) sample_trackers) sample_cfg.
Proof.
  apply (deduplication_keeps_the_decision (H:=sample_lib) sample_trackers).
  vm_compute; reflexivity.
Defined.

(** X19 at a sample input: no option and an empty environment. *)
Lemma unset_credentials_end_the_run_before_any_request_witness :
  exists w',
    main env_success 10 (parse_args ∅ "/opt/qbt_add" sample_command_line) world0
      = Some (Raise (SystemExit 2), w') /\
    calls w' = [].
Proof.
  apply (unset_credentials_end_the_run_before_any_request (H:=sample_lib) env_success 10
           ∅ "/opt/qbt_add" sample_command_line).
  left. split; reflexivity.
Defined.

(** X20 at a sample input: [--host] and [QBT_HOST] both given. *)
Lemma host_option_overrides_environment_witness :
  exists r w',
    main env_success 10 (parse_args sample_environ "/opt/qbt_add" sample_command_line)
      world0 = Some (r, w') /\
    Forall (fun rq => String.prefix "https://seedbox.example.net" (req_url rq) = true)
      (calls w').
Proof.
  eexists _, _. split; [vm_compute; reflexivity|].
  eapply (host_option_overrides_environment (H:=sample_lib) env_success 10 sample_environ
            "/opt/qbt_add" sample_command_line).
  vm_compute; reflexivity.
Defined.
